(** * ContractMonitor: event-diff tracking and alert derivation

    A shallow embedding of [src/monitors/ContractMonitor.js]: the monitor of
    an Expiring Multi Party contract, which turns newly observed contract
    events into log records and keeps one block-number watermark per event
    category.

    Layout: the JavaScript values and the bn.js operations the monitor uses,
    then the monitor itself (constructor, the two fixed-point computations,
    the four check-methods), then the properties. *)

From Stdlib Require Import ZArith NArith List String Ascii Bool Lia.
From Stdlib Require Import DecimalString.
Import ListNotations.

Set Warnings "-register-all".

Open Scope string_scope.
Open Scope list_scope.

(** String concatenation as JavaScript's [+] on strings. *)
Infix "+s" := String.append (at level 60, right associativity).

(* ================================================================== *)
(** ** JavaScript values *)

Module JS.

(** What a property read or an expression can evaluate to, as far as the
    monitor's string building is concerned. *)
Inductive Value : Type :=
| Undefined
| Null
| Str (s : string)
| Num (n : Z)
| Arr (items : list string)
| Obj (props : list (string * Value))
| Opaque (what : string).

(** What a call can throw: an [Error] object, by its name and message. *)
Record Error : Type := {
  name : string;
  message : string
}.

(** The error of a division by zero. The monitor never checks a divisor
    itself; bn.js refuses a zero divisor: [div] goes through [divmod], which
    starts with [assert(!num.isZero())], and a failed [assert] does
    [throw new Error(msg || 'Assertion failed')]. *)
Definition DivisionByZero : Error :=
  {| name := "Error"; message := "Assertion failed" |}.

(** A call either throws or returns. *)
Definition Result (A : Type) : Type := (Error + A)%type.

Definition ret {A} (a : A) : Result A := inr a.
Definition throw {A} (e : Error) : Result A := inl e.
Definition bind {A B} (r : Result A) (k : A -> Result B) : Result B :=
  match r with
  | inl e => inl e
  | inr a => k a
  end.

Definition returns {A} (r : Result A) : bool :=
  match r with inl _ => false | inr _ => true end.

(** [o[key]] on an object literal: the first binding of [key], or
    [undefined]. *)
Fixpoint get (props : list (string * Value)) (key : string) : Value :=
  match props with
  | [] => Undefined
  | (k, v) :: rest => if String.eqb k key then v else get rest key
  end.

(** [Array.prototype.join(",")] on an array of strings. *)
Fixpoint join (items : list string) : string :=
  match items with
  | [] => EmptyString
  | [x] => x
  | x :: rest => x +s "," +s join rest
  end.

(** The decimal numeral of an integer ([toString] of a number or a BN). *)
Definition decimal (n : Z) : string := NilZero.string_of_int (Z.to_int n).

(** ToString, as applied to the operand of a string [+]. *)
Definition toString (v : Value) : string :=
  match v with
  | Undefined => "undefined"
  | Null => "null"
  | Str s => s
  | Num n => decimal n
  | Arr items => join items
  | Obj _ => "[object Object]"
  | Opaque what => what
  end.

(** [array.indexOf(x)]: the index of the first element strictly equal to
    [x], or -1. *)
Fixpoint indexOf_from (i : Z) (items : list string) (x : string) : Z :=
  match items with
  | [] => (-1)%Z
  | y :: rest => if String.eqb y x then i else indexOf_from (i + 1)%Z rest x
  end.

Definition indexOf (items : list string) (x : string) : Z :=
  indexOf_from 0%Z items x.

End JS.

Notation "'do' x <- c1 ; c2" :=
  (JS.bind c1 (fun x => c2))
    (at level 10, x name, c1 at level 100, c2 at level 200).

(* ================================================================== *)
(** ** bn.js big numbers *)

Module BN.

Local Open Scope Z_scope.

(** [web3.utils.toWei("1")]: one token in 18-decimal fixed point. *)
Definition toWei_1 : Z := 10 ^ 18.

(** [a.mul(b)]. *)
Definition mul (a b : Z) : Z := a * b.

(** [a.muln(n)]. *)
Definition muln (a : Z) (n : Z) : Z := a * n.

(** [a.div(b)]: truncated quotient; throws on a zero divisor. *)
Definition div (a b : Z) : JS.Result Z :=
  if b =? 0 then JS.throw JS.DivisionByZero else JS.ret (Z.quot a b).

End BN.

(* ================================================================== *)
(** ** The two fixed-point computations *)

Module Calc.

Local Open Scope Z_scope.

(** [calculatePositionCRPercent] (lines 55-61): the method chain
    [collateral.mul(1e18).mul(1e18).div(tokensOutstanding.mul(price)).muln(100)]. *)
Definition calculatePositionCRPercent
    (collateral tokensOutstanding tokenPrice : Z) : JS.Result Z :=
  do q <- BN.div (BN.mul (BN.mul collateral BN.toWei_1) BN.toWei_1)
                 (BN.mul tokensOutstanding tokenPrice);
  JS.ret (BN.muln q 100).

(** [calculateDisputablePrice] (lines 65-72): the method chain
    [liquidatedCollateral.mul(1e18).div(liquidatedTokens).mul(1e18).div(crRequirement)]. *)
Definition calculateDisputablePrice
    (crRequirement liquidatedCollateral liquidatedTokens : Z) : JS.Result Z :=
  do q <- BN.div (BN.mul liquidatedCollateral BN.toWei_1) liquidatedTokens;
  BN.div (BN.mul q BN.toWei_1) crRequirement.

End Calc.

(* ================================================================== *)
(** ** Contract events *)

(** Every event carries a [blockNumber]; [getLastSeenBlockNumber] and the
    four filters read it whatever the event's category. *)
Class Event (E : Type) : Type := blockNumberOf : E -> N.

(** NewSponsor events, as [getAllNewSponsorEvents] returns them. *)
Module NewSponsor.
Record t : Type := {
  sponsor : string;
  tokenAmount : Z;
  collateralAmount : Z;
  transactionHash : string;
  blockNumber : N
}.
End NewSponsor.

(** Liquidation events, as [getAllLiquidationEvents] returns them. *)
Module Liquidation.
Record t : Type := {
  sponsor : string;
  liquidator : string;
  liquidationId : Z;
  lockedCollateral : Z;
  liquidatedCollateral : Z;
  tokensOutstanding : Z;
  transactionHash : string;
  blockNumber : N
}.
End Liquidation.

(** Dispute events, as [getAllDisputeEvents] returns them. *)
Module Dispute.
Record t : Type := {
  disputer : string;
  liquidator : string;
  disputeBondAmount : Z;
  transactionHash : string;
  blockNumber : N
}.
End Dispute.

(** Dispute settlement events, as [getAllDisputeSettlementEvents] returns
    them. *)
Module DisputeSettlement.
Record t : Type := {
  liquidator : string;
  disputer : string;
  disputeSucceeded : bool;
  transactionHash : string;
  blockNumber : N
}.
End DisputeSettlement.

#[export] Instance NewSponsor_Event : Event NewSponsor.t :=
  NewSponsor.blockNumber.
#[export] Instance Liquidation_Event : Event Liquidation.t :=
  Liquidation.blockNumber.
#[export] Instance Dispute_Event : Event Dispute.t :=
  Dispute.blockNumber.
#[export] Instance DisputeSettlement_Event : Event DisputeSettlement.t :=
  DisputeSettlement.blockNumber.

(* ================================================================== *)
(** ** Collaborators *)

(** [expiringMultiPartyEventClient]: the full known history per category. *)
Record EventClient : Type := {
  getAllNewSponsorEvents : list NewSponsor.t;
  getAllLiquidationEvents : list Liquidation.t;
  getAllDisputeEvents : list Dispute.t;
  getAllDisputeSettlementEvents : list DisputeSettlement.t
}.

(** [empContract.methods]: [liquidations(sponsor, id).call()] gives the
    liquidation's [liquidationTime], [collateralRequirement().call()] the
    required ratio. The reads are taken as returning. *)
Record EmpContract : Type := {
  liquidations : string -> Z -> Z;
  collateralRequirement : Z
}.

(** [priceFeed.getHistoricalPrice(time)]: a BN price, or nothing. *)
Record PriceFeed : Type := {
  getHistoricalPrice : Z -> option Z
}.

(** What the monitor's collaborators answer during one invocation. *)
Record Collaborators : Type := {
  empEventClient : EventClient;
  empContract : EmpContract;
  priceFeed : PriceFeed
}.

(* ================================================================== *)
(** ** The logging sink *)

Inductive Level : Type := debug | info | warn.

Definition Level_eqb (a b : Level) : bool :=
  match a, b with
  | debug, debug | info, info | warn, warn => true
  | _, _ => false
  end.

(** One call [logger.<level>({ at, message, ...fields })]. *)
Record LogRecord : Type := {
  level : Level;
  at_ : string;
  message : string;
  fields : list (string * JS.Value)
}.

(** The [mrkdwn] field of a record. *)
Definition mrkdwn (r : LogRecord) : JS.Value := JS.get (fields r) "mrkdwn".

(** The alerts among the records: those logged at [info]. *)
Definition alerts (records : list LogRecord) : list LogRecord :=
  filter (fun r => Level_eqb (level r) info) records.

(* ================================================================== *)
(** ** The monitor's state *)

Record EmpProps : Type := {
  collateralCurrencySymbol : string;
  syntheticCurrencySymbol : string;
  priceIdentifier : string;
  networkId : Z
}.

Record ContractMonitorConfig : Type := {
  config_monitoredLiquidators : list string;
  config_monitoredDisputers : list string
}.

(** The instance fields the constructor assigns (lines 22-51) that the
    check-methods read or write. *)
Record ContractMonitor : Type := {
  monitoredLiquidators : list string;
  monitoredDisputers : list string;
  lastLiquidationBlockNumber : N;
  lastDisputeBlockNumber : N;
  lastDisputeSettlementBlockNumber : N;
  lastNewSponsorBlockNumber : N;
  empProps : EmpProps
}.

(** [new ContractMonitor(logger, client, config, priceFeed, empProps)]. *)
Definition constructor (config : ContractMonitorConfig) (props : EmpProps)
  : ContractMonitor :=
  {| monitoredLiquidators := config_monitoredLiquidators config;
     monitoredDisputers := config_monitoredDisputers config;
     lastLiquidationBlockNumber := 0;
     lastDisputeBlockNumber := 0;
     lastDisputeSettlementBlockNumber := 0;
     lastNewSponsorBlockNumber := 0;
     empProps := props |}.

(** The instance as a JavaScript object: its own properties, in the order
    they are created (the class fields, then the constructor's
    assignments). *)
Definition own_properties (this : ContractMonitor) : list (string * JS.Value) :=
  [ ("calculatePositionCRPercent", JS.Opaque "function");
    ("calculateDisputablePrice", JS.Opaque "function");
    ("checkForNewSponsors", JS.Opaque "function");
    ("checkForNewLiquidations", JS.Opaque "function");
    ("checkForNewDisputeEvents", JS.Opaque "function");
    ("checkForNewDisputeSettlementEvents", JS.Opaque "function");
    ("logger", JS.Opaque "[object Object]");
    ("monitoredLiquidators", JS.Arr (monitoredLiquidators this));
    ("monitoredDisputers", JS.Arr (monitoredDisputers this));
    ("priceFeed", JS.Opaque "[object Object]");
    ("empEventClient", JS.Opaque "[object Object]");
    ("empContract", JS.Opaque "[object Object]");
    ("web3", JS.Opaque "[object Object]");
    ("lastLiquidationBlockNumber",
      JS.Num (Z.of_N (lastLiquidationBlockNumber this)));
    ("lastDisputeBlockNumber",
      JS.Num (Z.of_N (lastDisputeBlockNumber this)));
    ("lastDisputeSettlementBlockNumber",
      JS.Num (Z.of_N (lastDisputeSettlementBlockNumber this)));
    ("lastNewSponsorBlockNumber",
      JS.Num (Z.of_N (lastNewSponsorBlockNumber this)));
    ("empProps",
      JS.Obj
        [ ("collateralCurrencySymbol",
            JS.Str (collateralCurrencySymbol (empProps this)));
          ("syntheticCurrencySymbol",
            JS.Str (syntheticCurrencySymbol (empProps this)));
          ("priceIdentifier", JS.Str (priceIdentifier (empProps this)));
          ("networkId", JS.Num (networkId (empProps this))) ]);
    ("formatDecimalString", JS.Opaque "function");
    ("toWei", JS.Opaque "function");
    ("toBN", JS.Opaque "function") ].

(** What the prototype chain adds: the class's methods. *)
Definition prototype_properties : list (string * JS.Value) :=
  [ ("constructor", JS.Opaque "function");
    ("getLastSeenBlockNumber", JS.Opaque "function") ].

(** [this.key]: an own property, else one of the prototype, else
    [undefined]. *)
Definition this_get (this : ContractMonitor) (key : string) : JS.Value :=
  JS.get (own_properties this ++ prototype_properties) key.

(** Assignments to the four watermarks. *)
Definition set_lastNewSponsorBlockNumber (n : N) (this : ContractMonitor)
  : ContractMonitor :=
  {| monitoredLiquidators := monitoredLiquidators this;
     monitoredDisputers := monitoredDisputers this;
     lastLiquidationBlockNumber := lastLiquidationBlockNumber this;
     lastDisputeBlockNumber := lastDisputeBlockNumber this;
     lastDisputeSettlementBlockNumber := lastDisputeSettlementBlockNumber this;
     lastNewSponsorBlockNumber := n;
     empProps := empProps this |}.

Definition set_lastLiquidationBlockNumber (n : N) (this : ContractMonitor)
  : ContractMonitor :=
  {| monitoredLiquidators := monitoredLiquidators this;
     monitoredDisputers := monitoredDisputers this;
     lastLiquidationBlockNumber := n;
     lastDisputeBlockNumber := lastDisputeBlockNumber this;
     lastDisputeSettlementBlockNumber := lastDisputeSettlementBlockNumber this;
     lastNewSponsorBlockNumber := lastNewSponsorBlockNumber this;
     empProps := empProps this |}.

Definition set_lastDisputeBlockNumber (n : N) (this : ContractMonitor)
  : ContractMonitor :=
  {| monitoredLiquidators := monitoredLiquidators this;
     monitoredDisputers := monitoredDisputers this;
     lastLiquidationBlockNumber := lastLiquidationBlockNumber this;
     lastDisputeBlockNumber := n;
     lastDisputeSettlementBlockNumber := lastDisputeSettlementBlockNumber this;
     lastNewSponsorBlockNumber := lastNewSponsorBlockNumber this;
     empProps := empProps this |}.

Definition set_lastDisputeSettlementBlockNumber (n : N) (this : ContractMonitor)
  : ContractMonitor :=
  {| monitoredLiquidators := monitoredLiquidators this;
     monitoredDisputers := monitoredDisputers this;
     lastLiquidationBlockNumber := lastLiquidationBlockNumber this;
     lastDisputeBlockNumber := lastDisputeBlockNumber this;
     lastDisputeSettlementBlockNumber := n;
     lastNewSponsorBlockNumber := lastNewSponsorBlockNumber this;
     empProps := empProps this |}.

(** The same monitor configured with other monitored address lists. *)
Definition with_monitored (liquidators disputers : list string)
    (this : ContractMonitor) : ContractMonitor :=
  {| monitoredLiquidators := liquidators;
     monitoredDisputers := disputers;
     lastLiquidationBlockNumber := lastLiquidationBlockNumber this;
     lastDisputeBlockNumber := lastDisputeBlockNumber this;
     lastDisputeSettlementBlockNumber := lastDisputeSettlementBlockNumber this;
     lastNewSponsorBlockNumber := lastNewSponsorBlockNumber this;
     empProps := empProps this |}.

(** The same monitor with another synthetic currency symbol in its
    [empProps]. *)
Definition with_syntheticCurrencySymbol (symbol : string)
    (this : ContractMonitor) : ContractMonitor :=
  {| monitoredLiquidators := monitoredLiquidators this;
     monitoredDisputers := monitoredDisputers this;
     lastLiquidationBlockNumber := lastLiquidationBlockNumber this;
     lastDisputeBlockNumber := lastDisputeBlockNumber this;
     lastDisputeSettlementBlockNumber := lastDisputeSettlementBlockNumber this;
     lastNewSponsorBlockNumber := lastNewSponsorBlockNumber this;
     empProps :=
       {| collateralCurrencySymbol := collateralCurrencySymbol (empProps this);
          syntheticCurrencySymbol := symbol;
          priceIdentifier := priceIdentifier (empProps this);
          networkId := networkId (empProps this) |} |}.

(** What one invocation of a check-method leaves behind: the records it
    logged, the error it threw if it did not complete, and the monitor
    afterwards. *)
Record Outcome : Type := {
  logs : list LogRecord;
  thrown : option JS.Error;
  after : ContractMonitor
}.

(** [getLastSeenBlockNumber] (lines 74-79). *)
Definition getLastSeenBlockNumber {E} `{Event E} (eventArray : list E) : N :=
  if (List.length eventArray =? 0)%nat then 0%N
  else match nth_error eventArray (List.length eventArray - 1) with
       | Some event => blockNumberOf event
       | None => 0%N
       end.

(** [for (let event of events) { body }]: the iterations that completed,
    each with the records it logged, and the error that ended the loop
    early if one did. *)
Fixpoint for_of {E} (body : E -> JS.Result (list LogRecord)) (events : list E)
  : list (E * list LogRecord) * option JS.Error :=
  match events with
  | [] => ([], None)
  | event :: rest =>
      match body event with
      | inl e => ([], Some e)
      | inr records =>
          let (done, err) := for_of body rest in
          ((event, records) :: done, err)
      end
  end.

(** The records a loop logged, in order. *)
Definition logged {E} (done : list (E * list LogRecord)) : list LogRecord :=
  List.concat (map snd done).

(* ================================================================== *)
(** ** Concrete inputs *)

(** A monitor, collaborators and events to evaluate the check-methods on. *)
Module Sample.

(** Stand-ins for the two formatting helpers: the integer's numeral (and
    [null] for a missing price), and the address between angle brackets. *)
Definition formatDecimalString (value : option Z) : string :=
  match value with
  | Some n => JS.decimal n
  | None => "null"
  end.

Definition createEtherscanLinkMarkdown (hex : string) (network : Z) : string :=
  "<" +s hex +s ">".

Definition props : EmpProps :=
  {| collateralCurrencySymbol := "DAI";
     syntheticCurrencySymbol := "ETHBTC";
     priceIdentifier := "ETH/BTC";
     networkId := 1 |}.

Definition config : ContractMonitorConfig :=
  {| config_monitoredLiquidators := ["0x1234"];
     config_monitoredDisputers := ["0x5678"] |}.

Definition monitor : ContractMonitor := constructor config props.

Definition sponsor_at (block : N) : NewSponsor.t :=
  {| NewSponsor.sponsor := "0xaaaa";
     NewSponsor.tokenAmount := 50 * 10 ^ 18;
     NewSponsor.collateralAmount := 100 * 10 ^ 18;
     NewSponsor.transactionHash := "0xffff";
     NewSponsor.blockNumber := block |}.

Definition liquidation_at (block : N) (tokens : Z) : Liquidation.t :=
  {| Liquidation.sponsor := "0xaaaa";
     Liquidation.liquidator := "0x1234";
     Liquidation.liquidationId := 0;
     Liquidation.lockedCollateral := 1200 * 10 ^ 18;
     Liquidation.liquidatedCollateral := 1200 * 10 ^ 18;
     Liquidation.tokensOutstanding := tokens;
     Liquidation.transactionHash := "0xeeee";
     Liquidation.blockNumber := block |}.

(** Collaborators whose client knows the given sponsors and liquidations,
    whose contract requires a ratio of 1.2 and times every liquidation at
    1000, and whose feed answers every time with [price]. *)
Definition collaborators (sponsors : list NewSponsor.t)
    (liquidated : list Liquidation.t) (price : option Z) : Collaborators :=
  {| empEventClient :=
       {| getAllNewSponsorEvents := sponsors;
          getAllLiquidationEvents := liquidated;
          getAllDisputeEvents := [];
          getAllDisputeSettlementEvents := [] |};
     empContract :=
       {| liquidations := fun _ _ => 1000%Z;
          collateralRequirement := (12 * 10 ^ 17)%Z |};
     priceFeed := {| getHistoricalPrice := fun _ => price |} |}.

(** Sponsor fetches only. *)
Definition sponsors_only (sponsors : list NewSponsor.t) : Collaborators :=
  collaborators sponsors [] (Some (10 ^ 18)%Z).

Definition no_sponsors : Collaborators := sponsors_only [].
Definition one_sponsor : Collaborators := sponsors_only [sponsor_at 10].
Definition two_sponsors : Collaborators :=
  sponsors_only [sponsor_at 10; sponsor_at 15].
Definition three_sponsors : Collaborators :=
  sponsors_only [sponsor_at 10; sponsor_at 15; sponsor_at 20].

(** A history that grows: the same two sponsors twice, then a third. *)
Definition growing : list Collaborators :=
  [two_sponsors; two_sponsors; three_sponsors].

(** A history that is empty in between. *)
Definition interrupted : list Collaborators :=
  [one_sponsor; no_sponsors; one_sponsor].

(** A history that loses its last event. *)
Definition truncated : list Collaborators :=
  [sponsors_only [sponsor_at 10; sponsor_at 20]; one_sponsor].

(** The monitor once its sponsor watermark stands at [block]. *)
Definition monitor_at (block : N) : ContractMonitor :=
  set_lastNewSponsorBlockNumber block monitor.

(** Another sponsor's event at [block]. *)
Definition other_sponsor_at (block : N) : NewSponsor.t :=
  {| NewSponsor.sponsor := "0xbbbb";
     NewSponsor.tokenAmount := 7 * 10 ^ 18;
     NewSponsor.collateralAmount := 21 * 10 ^ 18;
     NewSponsor.transactionHash := "0xdddd";
     NewSponsor.blockNumber := block |}.

(** The first sponsor, and a second one created in the same block. *)
Definition same_block : Collaborators :=
  sponsors_only [sponsor_at 10; other_sponsor_at 10].

(** One liquidation of 1000 tokens, priced at 1. *)
Definition priced : Collaborators :=
  collaborators [] [liquidation_at 10 (1000 * 10 ^ 18)] (Some (10 ^ 18)%Z).

(** Three liquidations, the second with no tokens outstanding. *)
Definition faulty : Collaborators :=
  collaborators []
    [ liquidation_at 10 (1000 * 10 ^ 18);
      liquidation_at 11 0;
      liquidation_at 12 (1000 * 10 ^ 18) ]
    (Some (10 ^ 18)%Z).





(** One liquidation for whose time the feed has no price. *)
Definition unpriced : Collaborators :=
  collaborators [] [liquidation_at 10 (1000 * 10 ^ 18)] None.

End Sample.

(* ================================================================== *)
(** ** The check-methods *)

Section CheckMethods.

(** The two helpers of [../common/FormattingUtils] the monitor is built
    with. [formatDecimalString] is [createFormatFunction(web3, 2, 4)],
    applied to a BN or numeric string, or to the price the feed did not
    have; [createEtherscanLinkMarkdown] renders an address or a transaction
    hash for a network. *)
Variable formatDecimalString : option Z -> string.
Variable createEtherscanLinkMarkdown : string -> Z -> string.

Definition debug_record (msg field : string) (lastBlockNumber : N) : LogRecord :=
  {| level := debug;
     at_ := "ContractMonitor";
     message := msg;
     fields := [(field, JS.Num (Z.of_N lastBlockNumber))] |}.

Definition info_record (msg markdown : string) : LogRecord :=
  {| level := info;
     at_ := "ContractMonitor";
     message := msg;
     fields := [("mrkdwn", JS.Str markdown)] |}.

(** *** checkForNewSponsors (lines 82-125) *)

Definition newSponsorEvents (this : ContractMonitor) (env : Collaborators)
  : list NewSponsor.t :=
  filter (fun event => (lastNewSponsorBlockNumber this <? NewSponsor.blockNumber event)%N)
         (getAllNewSponsorEvents (empEventClient env)).

Definition newSponsor_mrkdwn (this : ContractMonitor) (event : NewSponsor.t)
  : string :=
  let isLiquidatorBot := JS.indexOf (monitoredLiquidators this) (NewSponsor.sponsor event) in
  let isDisputerBot := JS.indexOf (monitoredDisputers this) (NewSponsor.sponsor event) in
  let isMonitoredBot :=
    negb (isLiquidatorBot =? -1)%Z || negb (isDisputerBot =? -1)%Z in
  createEtherscanLinkMarkdown (NewSponsor.sponsor event) (networkId (empProps this)) +s
  (if isMonitoredBot then " (Monitored liquidator or disputer bot)" else "") +s
  " created " +s
  formatDecimalString (Some (NewSponsor.tokenAmount event)) +s
  " " +s
  syntheticCurrencySymbol (empProps this) +s
  " backed by " +s
  formatDecimalString (Some (NewSponsor.collateralAmount event)) +s
  " " +s
  collateralCurrencySymbol (empProps this) +s
  ". tx: " +s
  createEtherscanLinkMarkdown (NewSponsor.transactionHash event) (networkId (empProps this)).

Definition newSponsor_body (this : ContractMonitor) (event : NewSponsor.t)
  : JS.Result (list LogRecord) :=
  JS.ret [info_record "New Sponsor Alert 🐣!" (newSponsor_mrkdwn this event)].

Definition checkForNewSponsors (env : Collaborators) (this : ContractMonitor)
  : Outcome :=
  let opening :=
    debug_record "Checking for new sponsor events" "lastNewSponsorBlockNumber"
                 (lastNewSponsorBlockNumber this) in
  let latestNewSponsorEvents := getAllNewSponsorEvents (empEventClient env) in
  let (done, err) := for_of (newSponsor_body this) (newSponsorEvents this env) in
  match err with
  | Some e => {| logs := opening :: logged done; thrown := Some e; after := this |}
  | None =>
      {| logs := opening :: logged done;
         thrown := None;
         after := set_lastNewSponsorBlockNumber
                    (getLastSeenBlockNumber latestNewSponsorEvents) this |}
  end.

(** *** checkForNewLiquidations (lines 128-209) *)

Definition newLiquidationEvents (this : ContractMonitor) (env : Collaborators)
  : list Liquidation.t :=
  filter (fun event => (lastLiquidationBlockNumber this <? Liquidation.blockNumber event)%N)
         (getAllLiquidationEvents (empEventClient env)).

(** The message of a liquidation alert (lines 176-200), given the two
    derived strings. The token symbol is read from
    [this.syntheticCurrencySymbol]. *)
Definition liquidation_mrkdwn (this : ContractMonitor) (event : Liquidation.t)
    (price : option Z) (crRequirementString : Z)
    (collateralizationString maxPriceToBeDisputableString : string) : string :=
  createEtherscanLinkMarkdown (Liquidation.liquidator event) (networkId (empProps this)) +s
  (if negb (JS.indexOf (monitoredLiquidators this) (Liquidation.liquidator event) =? -1)%Z
   then " (Monitored liquidator bot)" else "") +s
  " initiated liquidation for " +s
  formatDecimalString (Some (Liquidation.lockedCollateral event)) +s
  " (liquidated collateral = " +s
  formatDecimalString (Some (Liquidation.liquidatedCollateral event)) +s
  ") " +s
  collateralCurrencySymbol (empProps this) +s
  " of sponsor " +s
  createEtherscanLinkMarkdown (Liquidation.sponsor event) (networkId (empProps this)) +s
  " collateral backing " +s
  formatDecimalString (Some (Liquidation.tokensOutstanding event)) +s
  " " +s
  JS.toString (this_get this "syntheticCurrencySymbol") +s
  " tokens. Sponsor collateralization ('liquidatedCollateral / tokensOutsanding') was " +s
  collateralizationString +s
  "%, using " +s
  formatDecimalString price +s
  " as the estimated price at liquidation time. With a collateralization requirement of " +s
  formatDecimalString (Some crRequirementString) +s
  "%, this liquidation would be disputable at a price below " +s
  maxPriceToBeDisputableString +s
  ". tx: " +s
  createEtherscanLinkMarkdown (Liquidation.transactionHash event) (networkId (empProps this)).

(** The record logged when the feed has no price for the liquidation's
    time (lines 161-166). *)
Definition price_warning (liquidationTime : Z) : LogRecord :=
  {| level := warn;
     at_ := "ContractMonitor";
     message := "Could not get historical price for liquidation";
     fields := [("price", JS.Null);
                ("liquidationTime", JS.Str (JS.decimal liquidationTime))] |}.

Definition liquidation_alert (this : ContractMonitor) (event : Liquidation.t)
    (price : option Z) (crRequirementString : Z)
    (collateralizationString maxPriceToBeDisputableString : string) : LogRecord :=
  info_record "Liquidation Alert 🧙‍♂️!"
    (liquidation_mrkdwn this event price crRequirementString
       collateralizationString maxPriceToBeDisputableString).

(** One iteration of the loop over the new liquidations (lines 143-207). *)
Definition liquidation_body (this : ContractMonitor) (env : Collaborators)
    (event : Liquidation.t) : JS.Result (list LogRecord) :=
  let liquidationTime :=
    liquidations (empContract env) (Liquidation.sponsor event)
                 (Liquidation.liquidationId event) in
  let price := getHistoricalPrice (priceFeed env) liquidationTime in
  let crRequirement := collateralRequirement (empContract env) in
  let crRequirementString := BN.muln crRequirement 100 in
  match price with
  | Some p =>
      do cr <- Calc.calculatePositionCRPercent
                 (Liquidation.liquidatedCollateral event)
                 (Liquidation.tokensOutstanding event) p;
      do dp <- Calc.calculateDisputablePrice crRequirement
                 (Liquidation.liquidatedCollateral event)
                 (Liquidation.tokensOutstanding event);
      JS.ret [liquidation_alert this event price crRequirementString
                (formatDecimalString (Some cr)) (formatDecimalString (Some dp))]
  | None =>
      JS.ret [price_warning liquidationTime;
              liquidation_alert this event price crRequirementString
                "[Invalid]" "[Invalid]"]
  end.

Definition checkForNewLiquidations (env : Collaborators) (this : ContractMonitor)
  : Outcome :=
  let opening :=
    debug_record "Checking for new liquidation events" "lastLiquidationBlockNumber"
                 (lastLiquidationBlockNumber this) in
  let latestLiquidationEvents := getAllLiquidationEvents (empEventClient env) in
  let (done, err) := for_of (liquidation_body this env) (newLiquidationEvents this env) in
  match err with
  | Some e => {| logs := opening :: logged done; thrown := Some e; after := this |}
  | None =>
      {| logs := opening :: logged done;
         thrown := None;
         after := set_lastLiquidationBlockNumber
                    (getLastSeenBlockNumber latestLiquidationEvents) this |}
  end.

(** *** checkForNewDisputeEvents (lines 211-247) *)

Definition newDisputeEvents (this : ContractMonitor) (env : Collaborators)
  : list Dispute.t :=
  filter (fun event => (lastDisputeBlockNumber this <? Dispute.blockNumber event)%N)
         (getAllDisputeEvents (empEventClient env)).

Definition dispute_mrkdwn (this : ContractMonitor) (event : Dispute.t) : string :=
  createEtherscanLinkMarkdown (Dispute.disputer event) (networkId (empProps this)) +s
  (if negb (JS.indexOf (monitoredDisputers this) (Dispute.disputer event) =? -1)%Z
   then " (Monitored dispute bot)" else "") +s
  " initiated dispute against liquidator " +s
  createEtherscanLinkMarkdown (Dispute.liquidator event) (networkId (empProps this)) +s
  (if negb (JS.indexOf (monitoredLiquidators this) (Dispute.liquidator event) =? -1)%Z
   then " (Monitored liquidator bot)" else "") +s
  " with a dispute bond of " +s
  formatDecimalString (Some (Dispute.disputeBondAmount event)) +s
  " " +s
  collateralCurrencySymbol (empProps this) +s
  ". tx: " +s
  createEtherscanLinkMarkdown (Dispute.transactionHash event) (networkId (empProps this)).

Definition dispute_body (this : ContractMonitor) (event : Dispute.t)
  : JS.Result (list LogRecord) :=
  JS.ret [info_record "Dispute Alert 👻!" (dispute_mrkdwn this event)].

Definition checkForNewDisputeEvents (env : Collaborators) (this : ContractMonitor)
  : Outcome :=
  let opening :=
    debug_record "Checking for new dispute events" "lastDisputeBlockNumber"
                 (lastDisputeBlockNumber this) in
  let latestDisputeEvents := getAllDisputeEvents (empEventClient env) in
  let (done, err) := for_of (dispute_body this) (newDisputeEvents this env) in
  match err with
  | Some e => {| logs := opening :: logged done; thrown := Some e; after := this |}
  | None =>
      {| logs := opening :: logged done;
         thrown := None;
         after := set_lastDisputeBlockNumber
                    (getLastSeenBlockNumber latestDisputeEvents) this |}
  end.

(** *** checkForNewDisputeSettlementEvents (lines 249-286) *)

Definition newDisputeSettlementEvents (this : ContractMonitor) (env : Collaborators)
  : list DisputeSettlement.t :=
  filter (fun event =>
            (lastDisputeSettlementBlockNumber this <? DisputeSettlement.blockNumber event)%N)
         (getAllDisputeSettlementEvents (empEventClient env)).

Definition disputeSettlement_mrkdwn (this : ContractMonitor)
    (event : DisputeSettlement.t) : string :=
  "Dispute between liquidator " +s
  createEtherscanLinkMarkdown (DisputeSettlement.liquidator event) (networkId (empProps this)) +s
  (if negb (JS.indexOf (monitoredLiquidators this) (DisputeSettlement.liquidator event) =? -1)%Z
   then "(Monitored liquidator bot)" else "") +s
  " and disputer " +s
  createEtherscanLinkMarkdown (DisputeSettlement.disputer event) (networkId (empProps this)) +s
  (if negb (JS.indexOf (monitoredDisputers this) (DisputeSettlement.disputer event) =? -1)%Z
   then "(Monitored dispute bot)" else "") +s
  " has been resolved as " +s
  (if Bool.eqb (DisputeSettlement.disputeSucceeded event) true then "success" else "failed") +s
  ". tx: " +s
  createEtherscanLinkMarkdown (DisputeSettlement.transactionHash event) (networkId (empProps this)).

Definition disputeSettlement_body (this : ContractMonitor)
    (event : DisputeSettlement.t) : JS.Result (list LogRecord) :=
  JS.ret [info_record "Dispute Settlement Alert 👮‍♂️!"
            (disputeSettlement_mrkdwn this event)].

Definition checkForNewDisputeSettlementEvents (env : Collaborators)
    (this : ContractMonitor) : Outcome :=
  let opening :=
    debug_record "Checking for new dispute settlement events"
                 "lastDisputeSettlementBlockNumber"
                 (lastDisputeSettlementBlockNumber this) in
  let latestDisputeSettlementEvents :=
    getAllDisputeSettlementEvents (empEventClient env) in
  let (done, err) :=
    for_of (disputeSettlement_body this) (newDisputeSettlementEvents this env) in
  match err with
  | Some e => {| logs := opening :: logged done; thrown := Some e; after := this |}
  | None =>
      {| logs := opening :: logged done;
         thrown := None;
         after := set_lastDisputeSettlementBlockNumber
                    (getLastSeenBlockNumber latestDisputeSettlementEvents) this |}
  end.

(* ================================================================== *)
(** ** The four categories, uniformly *)

Inductive Category : Type :=
| Sponsors
| Liquidations
| Disputes
| DisputeSettlements.

(** An event of any category. *)
Inductive AnyEvent : Type :=
| SponsorEvent (event : NewSponsor.t)
| LiquidationEvent (event : Liquidation.t)
| DisputeEvent (event : Dispute.t)
| DisputeSettlementEvent (event : DisputeSettlement.t).

#[export] Instance AnyEvent_Event : Event AnyEvent :=
  fun any =>
    match any with
    | SponsorEvent event => blockNumberOf event
    | LiquidationEvent event => blockNumberOf event
    | DisputeEvent event => blockNumberOf event
    | DisputeSettlementEvent event => blockNumberOf event
    end.

(** The check-method of a category. *)
Definition check (c : Category) : Collaborators -> ContractMonitor -> Outcome :=
  match c with
  | Sponsors => checkForNewSponsors
  | Liquidations => checkForNewLiquidations
  | Disputes => checkForNewDisputeEvents
  | DisputeSettlements => checkForNewDisputeSettlementEvents
  end.

(** The category's watermark. *)
Definition watermark (c : Category) (this : ContractMonitor) : N :=
  match c with
  | Sponsors => lastNewSponsorBlockNumber this
  | Liquidations => lastLiquidationBlockNumber this
  | Disputes => lastDisputeBlockNumber this
  | DisputeSettlements => lastDisputeSettlementBlockNumber this
  end.

(** The list the category's check-method fetches. *)
Definition fetched (c : Category) (env : Collaborators) : list AnyEvent :=
  match c with
  | Sponsors => map SponsorEvent (getAllNewSponsorEvents (empEventClient env))
  | Liquidations => map LiquidationEvent (getAllLiquidationEvents (empEventClient env))
  | Disputes => map DisputeEvent (getAllDisputeEvents (empEventClient env))
  | DisputeSettlements =>
      map DisputeSettlementEvent (getAllDisputeSettlementEvents (empEventClient env))
  end.

(** The loop iterations an invocation completes: each event whose body ran
    to its [logger.info], with the records that iteration logged. *)
Definition iterations (c : Category) (env : Collaborators) (this : ContractMonitor)
  : list (AnyEvent * list LogRecord) :=
  match c with
  | Sponsors =>
      map (fun it => (SponsorEvent (fst it), snd it))
          (fst (for_of (newSponsor_body this) (newSponsorEvents this env)))
  | Liquidations =>
      map (fun it => (LiquidationEvent (fst it), snd it))
          (fst (for_of (liquidation_body this env) (newLiquidationEvents this env)))
  | Disputes =>
      map (fun it => (DisputeEvent (fst it), snd it))
          (fst (for_of (dispute_body this) (newDisputeEvents this env)))
  | DisputeSettlements =>
      map (fun it => (DisputeSettlementEvent (fst it), snd it))
          (fst (for_of (disputeSettlement_body this) (newDisputeSettlementEvents this env)))
  end.

(** The events an invocation alerts. *)
Definition alerted (c : Category) (env : Collaborators) (this : ContractMonitor)
  : list AnyEvent :=
  map fst (iterations c env this).

(** Successive invocations of one check-method, each paired with the
    monitor it starts from. *)
Fixpoint invocations (c : Category) (envs : list Collaborators)
    (this : ContractMonitor) : list (ContractMonitor * Collaborators) :=
  match envs with
  | [] => []
  | env :: rest => (this, env) :: invocations c rest (after (check c env this))
  end.

(** The monitor after all of them. *)
Definition invoke_all (c : Category) (envs : list Collaborators)
    (this : ContractMonitor) : ContractMonitor :=
  fold_left (fun monitor env => after (check c env monitor)) envs this.

(** The watermark before the first invocation and after each one. *)
Fixpoint watermarks (c : Category) (envs : list Collaborators)
    (this : ContractMonitor) : list N :=
  match envs with
  | [] => [watermark c this]
  | env :: rest => watermark c this :: watermarks c rest (after (check c env this))
  end.

(** Every invocation of the sequence completes (none throws). *)
Fixpoint completed (c : Category) (envs : list Collaborators)
    (this : ContractMonitor) : bool :=
  match envs with
  | [] => true
  | env :: rest =>
      match thrown (check c env this) with
      | None => completed c rest (after (check c env this))
      | Some _ => false
      end
  end.

(** ** Orderings of block numbers *)

Fixpoint nondecreasing (l : list N) : bool :=
  match l with
  | a :: (b :: _) as rest => (a <=? b)%N && nondecreasing rest
  | _ => true
  end.

Definition blockNumbers {E} `{Event E} (events : list E) : list N :=
  map blockNumberOf events.

(** Block numbers do not decrease within any fetched list. *)
Definition ordered_fetches (c : Category) (envs : list Collaborators) : bool :=
  forallb (fun env => nondecreasing (blockNumbers (fetched c env))) envs.

(** The last block number of each non-empty fetch, in fetch order. *)
Definition last_blocks (c : Category) (envs : list Collaborators) : list N :=
  flat_map (fun env => match fetched c env with
                       | [] => []
                       | _ :: _ => [getLastSeenBlockNumber (fetched c env)]
                       end) envs.

(** Every block number of every fetch, in fetch order. *)
Definition all_blocks (c : Category) (envs : list Collaborators) : list N :=
  flat_map (fun env => blockNumbers (fetched c env)) envs.

(** What [getLastSeenBlockNumber] makes of each fetch: its last block
    number, and 0 for an empty fetch. *)
Definition tails (c : Category) (envs : list Collaborators) : list N :=
  map (fun env => getLastSeenBlockNumber (fetched c env)) envs.

(** The largest block number among all fetches (0 when there is none). *)
Definition max_block (c : Category) (envs : list Collaborators) : N :=
  fold_right N.max 0%N (all_blocks c envs).

(** A division by zero arises in the metrics of a liquidation: the feed
    has a price and a divisor is zero. *)
Definition arithmetic_fault (env : Collaborators) (event : Liquidation.t) : bool :=
  match getHistoricalPrice (priceFeed env)
          (liquidations (empContract env) (Liquidation.sponsor event)
                        (Liquidation.liquidationId event)) with
  | Some p =>
      (Liquidation.tokensOutstanding event * p =? 0)%Z
      || (Liquidation.tokensOutstanding event =? 0)%Z
      || (collateralRequirement (empContract env) =? 0)%Z
  | None => false
  end.

(** The error, if any, that ends the loop of an invocation early. *)
Definition loop_error (c : Category) (env : Collaborators) (this : ContractMonitor)
  : option JS.Error :=
  match c with
  | Sponsors => snd (for_of (newSponsor_body this) (newSponsorEvents this env))
  | Liquidations =>
      snd (for_of (liquidation_body this env) (newLiquidationEvents this env))
  | Disputes => snd (for_of (dispute_body this) (newDisputeEvents this env))
  | DisputeSettlements =>
      snd (for_of (disputeSettlement_body this) (newDisputeSettlementEvents this env))
  end.

(** The assignment to the category's watermark. *)
Definition set_watermark (c : Category) : N -> ContractMonitor -> ContractMonitor :=
  match c with
  | Sponsors => set_lastNewSponsorBlockNumber
  | Liquidations => set_lastLiquidationBlockNumber
  | Disputes => set_lastDisputeBlockNumber
  | DisputeSettlements => set_lastDisputeSettlementBlockNumber
  end.

(** The [debug] record a check-method opens with. *)
Definition opening (c : Category) (this : ContractMonitor) : LogRecord :=
  match c with
  | Sponsors =>
      debug_record "Checking for new sponsor events" "lastNewSponsorBlockNumber"
                   (lastNewSponsorBlockNumber this)
  | Liquidations =>
      debug_record "Checking for new liquidation events" "lastLiquidationBlockNumber"
                   (lastLiquidationBlockNumber this)
  | Disputes =>
      debug_record "Checking for new dispute events" "lastDisputeBlockNumber"
                   (lastDisputeBlockNumber this)
  | DisputeSettlements =>
      debug_record "Checking for new dispute settlement events"
                   "lastDisputeSettlementBlockNumber"
                   (lastDisputeSettlementBlockNumber this)
  end.

(** Two results that throw the same error, or return records of the same
    shape. *)
Definition related_results (same : LogRecord -> LogRecord -> Prop)
    (r1 r2 : JS.Result (list LogRecord)) : Prop :=
  match r1, r2 with
  | inl e1, inl e2 => e1 = e2
  | inr l1, inr l2 => Forall2 same l1 l2
  | _, _ => False
  end.

(** The feed has no price for the time of a liquidation. *)
Definition price_missing (env : Collaborators) (event : Liquidation.t) : bool :=
  match getHistoricalPrice (priceFeed env)
          (liquidations (empContract env) (Liquidation.sponsor event)
                        (Liquidation.liquidationId event)) with
  | Some _ => false
  | None => true
  end.

(** The records logged at [warn]. *)
Definition warnings (records : list LogRecord) : list LogRecord :=
  filter (fun r => Level_eqb (level r) warn) records.

(** [x] is one of [items]. *)
Definition member (x : string) (items : list string) : bool :=
  existsb (fun y => String.eqb y x) items.

(** The annotations the alert of an event carries under given lists of
    monitored liquidators and disputers: one entry per place of the
    message where an annotation can stand, in order; the entry is the
    annotation when the address is monitored and nothing otherwise. *)
Definition annotations (liquidators disputers : list string) (e : AnyEvent)
  : list string :=
  match e with
  | SponsorEvent event =>
      [ if member (NewSponsor.sponsor event) liquidators
           || member (NewSponsor.sponsor event) disputers
        then " (Monitored liquidator or disputer bot)" else "" ]
  | LiquidationEvent event =>
      [ if member (Liquidation.liquidator event) liquidators
        then " (Monitored liquidator bot)" else "" ]
  | DisputeEvent event =>
      [ if member (Dispute.disputer event) disputers
        then " (Monitored dispute bot)" else "";
        if member (Dispute.liquidator event) liquidators
        then " (Monitored liquidator bot)" else "" ]
  | DisputeSettlementEvent event =>
      [ if member (DisputeSettlement.liquidator event) liquidators
        then "(Monitored liquidator bot)" else "";
        if member (DisputeSettlement.disputer event) disputers
        then "(Monitored dispute bot)" else "" ]
  end.

(** A text in pieces, with a note before each piece but the first. *)
Fixpoint weave (first : string) (rest : list (string * string)) : string :=
  match rest with
  | [] => first
  | (note, piece) :: more => first +s note +s weave piece more
  end.

(** [actual] is [base] with the notes put in: a record that is not an alert
    is the same in both; an alert has the same level, tag and message, and
    its text is the text of [base], which has nothing at the places of the
    notes, with each note at its place. *)
Definition annotates (notes : list string) (base actual : LogRecord) : Prop :=
  match level actual with
  | info =>
      level base = info /\ at_ base = at_ actual /\ message base = message actual /\
      exists first pieces,
        List.length pieces = List.length notes /\
        fields base =
          [("mrkdwn", JS.Str (weave first (combine (map (fun _ => "") notes) pieces)))] /\
        fields actual =
          [("mrkdwn", JS.Str (weave first (combine notes pieces)))]
  | _ => base = actual
  end.

(** Two records that differ at most in the values of their fields. *)
Definition same_shape (r1 r2 : LogRecord) : Prop :=
  level r1 = level r2 /\ at_ r1 = at_ r2 /\ message r1 = message r2 /\
  map fst (fields r1) = map fst (fields r2).

(* ================================================================== *)
(** ** Properties *)

(** *** Strings *)

Lemma append_assoc (a b c : string) : (a +s b) +s c = a +s (b +s c).
Proof.
  induction a as [|ch a IH]; simpl; [reflexivity | now rewrite IH].
Qed.

(** *** The fixed-point computations *)

Lemma div_returns (a b : Z) :
  b <> 0%Z -> BN.div a b = JS.ret (Z.quot a b).
Proof.
  intro H. unfold BN.div. destruct (Z.eqb_spec b 0); [contradiction | reflexivity].
Qed.

(** *** [getLastSeenBlockNumber] and ordered lists *)

Lemma nondecreasing_step (a b : N) (l : list N) :
  nondecreasing (a :: b :: l) = ((a <=? b)%N && nondecreasing (b :: l)).
Proof. reflexivity. Qed.

Section Lists.

Context {E : Type} `{Event E}.

Lemma getLastSeenBlockNumber_one (a : E) :
  getLastSeenBlockNumber [a] = blockNumberOf a.
Proof. reflexivity. Qed.

Lemma getLastSeenBlockNumber_cons (a b : E) (rest : list E) :
  getLastSeenBlockNumber (a :: b :: rest) = getLastSeenBlockNumber (b :: rest).
Proof.
  unfold getLastSeenBlockNumber. cbn [List.length Nat.eqb].
  replace (S (S (List.length rest)) - 1)%nat with (S (List.length rest)) by lia.
  replace (S (List.length rest) - 1)%nat with (List.length rest) by lia.
  reflexivity.
Qed.

Lemma ordered_step (a b : E) (rest : list E) :
  nondecreasing (blockNumbers (a :: b :: rest)) = true ->
  (blockNumberOf a <= blockNumberOf b)%N /\
  nondecreasing (blockNumbers (b :: rest)) = true.
Proof.
  change (blockNumbers (a :: b :: rest))
    with (blockNumberOf a :: blockNumberOf b :: blockNumbers rest).
  change (blockNumbers (b :: rest)) with (blockNumberOf b :: blockNumbers rest).
  rewrite nondecreasing_step. intro Hord.
  apply andb_true_iff in Hord. destruct Hord as [Hab Hrest].
  apply N.leb_le in Hab. now split.
Qed.

(** In an ordered list the last block number bounds every other. *)
Lemma ordered_below_last (events : list E) (event : E) :
  nondecreasing (blockNumbers events) = true ->
  In event events ->
  (blockNumberOf event <= getLastSeenBlockNumber events)%N.
Proof.
  revert event.
  induction events as [|a [|b rest] IH]; intros event Hord Hin.
  - destruct Hin.
  - destruct Hin as [->|[]]. rewrite getLastSeenBlockNumber_one. lia.
  - rewrite getLastSeenBlockNumber_cons.
    destruct (ordered_step _ _ _ Hord) as [Hab Hrest].
    assert (Hb : (blockNumberOf b <= getLastSeenBlockNumber (b :: rest))%N)
      by (apply IH; [exact Hrest | now left]).
    destruct Hin as [->|Hin]; [lia | now apply IH].
Qed.

(** So the last block number of an ordered list is its largest. *)
Lemma ordered_last_is_max (events : list E) :
  nondecreasing (blockNumbers events) = true ->
  fold_right N.max 0%N (blockNumbers events) = getLastSeenBlockNumber events.
Proof.
  induction events as [|a [|b rest] IH]; intro Hord.
  - reflexivity.
  - rewrite getLastSeenBlockNumber_one. cbn. lia.
  - pose proof (ordered_below_last (a :: b :: rest) a Hord (or_introl eq_refl)) as Ha.
    rewrite getLastSeenBlockNumber_cons in *.
    destruct (ordered_step _ _ _ Hord) as [_ Hrest].
    specialize (IH Hrest).
    change (fold_right N.max 0%N (blockNumbers (a :: b :: rest)))
      with (N.max (blockNumberOf a) (fold_right N.max 0%N (blockNumbers (b :: rest)))).
    rewrite IH. lia.
Qed.

End Lists.

Lemma nondecreasing_cons (a : N) (l : list N) :
  nondecreasing (a :: l) = true ->
  nondecreasing l = true /\ Forall (fun b => (a <= b)%N) l.
Proof.
  revert a. induction l as [|b l IH]; intros a Hnd.
  - split; [reflexivity | constructor].
  - rewrite nondecreasing_step in Hnd. apply andb_true_iff in Hnd.
    destruct Hnd as [Hab Hrest]. apply N.leb_le in Hab.
    split; [exact Hrest|].
    constructor; [exact Hab|].
    destruct (IH b Hrest) as [_ Hall].
    eapply Forall_impl; [|exact Hall]. cbn. intros; lia.
Qed.

(** *** The loop *)

Lemma for_of_fst_In {E} (body : E -> JS.Result (list LogRecord)) (events : list E) it :
  In it (fst (for_of body events)) ->
  In (fst it) events /\ body (fst it) = JS.ret (snd it).
Proof.
  induction events as [|e rest IH]; cbn [for_of]; intro Hin.
  - destruct Hin.
  - destruct (body e) as [err|records] eqn:Hbody; [destruct Hin|].
    destruct (for_of body rest) as [done err]. cbn [fst] in *.
    destruct Hin as [<-|Hin].
    + split; [now left | exact Hbody].
    + destruct (IH Hin) as [H1 H2]. split; [now right | exact H2].
Qed.

(** A loop over bodies that all return completes every iteration. *)
Lemma for_of_returns {E} (body : E -> JS.Result (list LogRecord)) (events : list E) :
  forallb (fun e => JS.returns (body e)) events = true ->
  for_of body events =
    (map (fun e => (e, match body e with inr r => r | inl _ => [] end)) events, None).
Proof.
  induction events as [|e rest IH]; cbn [for_of forallb map]; intro Hall;
    [reflexivity|].
  apply andb_true_iff in Hall. destruct Hall as [He Hrest].
  destruct (body e) as [err|records]; [discriminate|].
  now rewrite (IH Hrest).
Qed.

(** A loop stops at the first body that throws. *)
Lemma for_of_throws {E} (body : E -> JS.Result (list LogRecord))
    (pre post : list E) (e : E) (err : JS.Error) :
  forallb (fun e => JS.returns (body e)) pre = true ->
  body e = JS.throw err ->
  for_of body (pre ++ e :: post) =
    (map (fun e => (e, match body e with inr r => r | inl _ => [] end)) pre, Some err).
Proof.
  induction pre as [|a pre IH]; cbn [for_of forallb map app]; intros Hall Hthrow.
  - now rewrite Hthrow.
  - apply andb_true_iff in Hall. destruct Hall as [Ha Hpre].
    destruct (body a) as [e'|records]; [discriminate|].
    now rewrite (IH Hpre Hthrow).
Qed.

(** *** One invocation *)

Lemma getLastSeenBlockNumber_map {E F} `{Event E} `{Event F} (f : E -> F)
    (events : list E) :
  (forall e, blockNumberOf (f e) = blockNumberOf e) ->
  getLastSeenBlockNumber (map f events) = getLastSeenBlockNumber events.
Proof.
  intro Hf. induction events as [|a [|b rest] IH].
  - reflexivity.
  - cbn [map]. rewrite !getLastSeenBlockNumber_one. apply Hf.
  - change (map f (a :: b :: rest)) with (f a :: f b :: map f rest).
    rewrite !getLastSeenBlockNumber_cons. exact IH.
Qed.

(** Unfold the check-method of a category down to its loop. *)
Ltac open_check c :=
  destruct c; cbn [check watermark fetched];
  [ unfold checkForNewSponsors;
    destruct (for_of (newSponsor_body _) _) as [done [err|]]
  | unfold checkForNewLiquidations;
    destruct (for_of (liquidation_body _ _) _) as [done [err|]]
  | unfold checkForNewDisputeEvents;
    destruct (for_of (dispute_body _) _) as [done [err|]]
  | unfold checkForNewDisputeSettlementEvents;
    destruct (for_of (disputeSettlement_body _) _) as [done [err|]] ];
  cbn [logs thrown after].

(** An invocation that throws leaves the monitor as it was. *)
Lemma thrown_leaves_monitor (c : Category) (env : Collaborators)
    (this : ContractMonitor) (e : JS.Error) :
  thrown (check c env this) = Some e -> after (check c env this) = this.
Proof.
  open_check c; intro Hthrown; try reflexivity; discriminate.
Qed.

(** An invocation that completes sets the category's watermark to what
    [getLastSeenBlockNumber] makes of the fetched list. *)
Lemma completed_sets_watermark (c : Category) (env : Collaborators)
    (this : ContractMonitor) :
  thrown (check c env this) = None ->
  watermark c (after (check c env this)) = getLastSeenBlockNumber (fetched c env).
Proof.
  open_check c; intro Hthrown; try discriminate; cbn;
    symmetry; now apply getLastSeenBlockNumber_map.
Qed.

(** No invocation touches the watermark of another category. *)
Lemma other_watermarks_kept (c c' : Category) (env : Collaborators)
    (this : ContractMonitor) :
  c <> c' -> watermark c' (after (check c env this)) = watermark c' this.
Proof.
  intro Hneq. open_check c; destruct c'; try reflexivity; contradiction.
Qed.

(** No invocation touches the configuration. *)
Lemma configuration_kept (c : Category) (env : Collaborators)
    (this : ContractMonitor) :
  monitoredLiquidators (after (check c env this)) = monitoredLiquidators this /\
  monitoredDisputers (after (check c env this)) = monitoredDisputers this /\
  empProps (after (check c env this)) = empProps this.
Proof.
  open_check c; repeat split.
Qed.

(** The alerted events are fetched events above the watermark. *)
Lemma alerted_are_new (c : Category) (env : Collaborators)
    (this : ContractMonitor) (e : AnyEvent) :
  In e (alerted c env this) ->
  In e (fetched c env) /\ (watermark c this < blockNumberOf e)%N.
Proof.
  unfold alerted. rewrite in_map_iff. intros [it [<- Hit]].
  destruct c; cbn [iterations fetched watermark] in *;
    apply in_map_iff in Hit; destruct Hit as [it0 [<- Hit0]];
    apply for_of_fst_In in Hit0; destruct Hit0 as [Hnew _];
    apply filter_In in Hnew; destruct Hnew as [Hin Hlt];
    apply N.ltb_lt in Hlt; cbn [fst]; (split; [now apply in_map | exact Hlt]).
Qed.

Lemma logged_relabel {E F} (g : E -> F) (done : list (E * list LogRecord)) :
  logged (map (fun it => (g (fst it), snd it)) done) = logged done.
Proof.
  unfold logged. now rewrite map_map.
Qed.

Lemma alerts_app (l1 l2 : list LogRecord) :
  alerts (l1 ++ l2) = alerts l1 ++ alerts l2.
Proof. apply filter_app. Qed.

Lemma alerts_logged {E} (done : list (E * list LogRecord)) :
  alerts (logged done) = flat_map (fun it => alerts (snd it)) done.
Proof.
  unfold logged. induction done as [|it done IH]; [reflexivity|].
  cbn [map List.concat flat_map]. now rewrite alerts_app, IH.
Qed.

(** The records of an invocation: the opening [debug] record, then what
    the completed iterations logged. *)
Lemma logs_are_iterations (c : Category) (env : Collaborators)
    (this : ContractMonitor) :
  exists opening,
    level opening = debug /\
    logs (check c env this) = opening :: logged (iterations c env this).
Proof.
  unfold iterations.
  open_check c; cbn [fst]; rewrite logged_relabel;
    eexists; (split; [|reflexivity]); reflexivity.
Qed.

(** Every completed iteration logged exactly one alert. *)
Lemma iteration_alerts_once (c : Category) (env : Collaborators)
    (this : ContractMonitor) (it : AnyEvent * list LogRecord) :
  In it (iterations c env this) -> exists r, alerts (snd it) = [r].
Proof.
  destruct c; cbn [iterations]; intro Hit;
    apply in_map_iff in Hit; destruct Hit as [it0 [<- Hit0]];
    apply for_of_fst_In in Hit0; destruct Hit0 as [_ Hbody]; cbn [snd].
  - inversion Hbody as [Hrec]. eexists; reflexivity.
  - unfold liquidation_body in Hbody.
    destruct (getHistoricalPrice _ _) as [p|].
    + destruct (Calc.calculatePositionCRPercent _ _ _) as [e|cr]; [discriminate|].
      cbn [JS.bind] in Hbody.
      destruct (Calc.calculateDisputablePrice _ _ _) as [e|dp]; [discriminate|].
      cbn [JS.bind] in Hbody.
      inversion Hbody as [Hrec]. eexists; reflexivity.
    + inversion Hbody as [Hrec]. eexists; reflexivity.
  - inversion Hbody as [Hrec]. eexists; reflexivity.
  - inversion Hbody as [Hrec]. eexists; reflexivity.
Qed.

(** So an invocation logs one alert per alerted event. *)
Lemma one_alert_per_alerted_event (c : Category) (env : Collaborators)
    (this : ContractMonitor) :
  List.length (alerts (logs (check c env this))) = List.length (alerted c env this).
Proof.
  destruct (logs_are_iterations c env this) as [opening [Hlevel ->]].
  unfold alerted. rewrite length_map.
  cbn [alerts filter]. rewrite Hlevel. cbn [Level_eqb].
  fold (alerts (logged (iterations c env this))).
  rewrite alerts_logged.
  pose proof (iteration_alerts_once c env this) as Honce.
  induction (iterations c env this) as [|it its IH]; [reflexivity|].
  cbn [flat_map List.length]. rewrite length_app.
  destruct (Honce it (or_introl eq_refl)) as [r ->].
  cbn [List.length Nat.add]. f_equal. apply IH.
  intros it' Hit'. apply Honce. now right.
Qed.

(** *** Sequences of invocations *)

Lemma invocation_facts (c : Category) (envs : list Collaborators)
    (this : ContractMonitor) (i : nat) (si : ContractMonitor) (ei : Collaborators) :
  ordered_fetches c envs = true ->
  completed c envs this = true ->
  nth_error (invocations c envs this) i = Some (si, ei) ->
  nondecreasing (blockNumbers (fetched c ei)) = true /\
  thrown (check c ei si) = None /\
  (forall sj ej, nth_error (invocations c envs this) (S i) = Some (sj, ej) ->
                 sj = after (check c ei si)).
Proof.
  revert this i.
  induction envs as [|env rest IH]; intros this i Hord Hdone Hnth.
  - destruct i; discriminate.
  - cbn [ordered_fetches forallb] in Hord. apply andb_true_iff in Hord.
    destruct Hord as [Hhead Hrest].
    cbn [completed] in Hdone.
    destruct (thrown (check c env this)) eqn:Hthrown; [discriminate|].
    destruct i as [|i]; cbn [invocations nth_error] in *.
    + inversion Hnth; subst si ei. repeat split; try assumption.
      intros sj ej Hnext. destruct rest as [|env' rest']; [discriminate|].
      cbn [invocations nth_error] in Hnext. now inversion Hnext.
    + exact (IH _ i Hrest Hdone Hnth).
Qed.

(** Once the watermark and every later tail are at least [m], every later
    alert is for a block above [m]. *)
Lemma later_alerts_above (c : Category) (m : N) (envs : list Collaborators)
    (this : ContractMonitor) :
  completed c envs this = true ->
  (m <= watermark c this)%N ->
  Forall (fun t => (m <= t)%N) (tails c envs) ->
  forall i s env e,
    nth_error (invocations c envs this) i = Some (s, env) ->
    In e (alerted c env s) ->
    (m < blockNumberOf e)%N.
Proof.
  revert this.
  induction envs as [|env0 rest IH]; intros this Hdone Hw Htails i s env e Hnth Hin.
  - destruct i; discriminate.
  - cbn [completed] in Hdone.
    destruct (thrown (check c env0 this)) eqn:Hthrown; [discriminate|].
    cbn [tails map] in Htails. inversion Htails as [|t ts Hhead Hrest]; subst.
    destruct i as [|i]; cbn [invocations nth_error] in Hnth.
    + inversion Hnth; subst s env.
      apply alerted_are_new in Hin. destruct Hin as [_ Hlt]. lia.
    + apply (IH (after (check c env0 this)) Hdone) with (i := i) (s := s) (env := env);
        try assumption.
      rewrite (completed_sets_watermark c env0 this Hthrown). exact Hhead.
Qed.

(** An event list none of whose members can exist is empty. *)
Lemma no_member_nil {A} (l : list A) : (forall a, ~ In a l) -> l = [].
Proof.
  destruct l as [|a l]; [reflexivity|].
  intro Hnone. destruct (Hnone a). now left.
Qed.

Lemma nondecreasing_zero (l : list N) :
  nondecreasing l = true -> nondecreasing (0%N :: l) = true.
Proof.
  destruct l as [|b l]; [reflexivity|].
  intro Hl. rewrite nondecreasing_step, Hl, andb_true_r.
  apply N.leb_le. lia.
Qed.

Lemma fold_max_app (l1 l2 : list N) :
  fold_right N.max 0%N (l1 ++ l2) =
  N.max (fold_right N.max 0%N l1) (fold_right N.max 0%N l2).
Proof.
  induction l1 as [|a l1 IH]; cbn [app fold_right]; [lia|].
  rewrite IH. lia.
Qed.

Lemma watermarks_are_tails (c : Category) (envs : list Collaborators)
    (this : ContractMonitor) :
  completed c envs this = true ->
  watermarks c envs this = watermark c this :: tails c envs.
Proof.
  revert this. induction envs as [|env rest IH]; intros this Hdone; [reflexivity|].
  cbn [completed] in Hdone.
  destruct (thrown (check c env this)) eqn:Hthrown; [discriminate|].
  cbn [watermarks tails map]. rewrite (IH _ Hdone).
  now rewrite (completed_sets_watermark c env this Hthrown).
Qed.

Lemma final_watermark (c : Category) (envs : list Collaborators)
    (this : ContractMonitor) :
  ordered_fetches c envs = true ->
  nondecreasing (watermark c this :: tails c envs) = true ->
  completed c envs this = true ->
  watermark c (invoke_all c envs this) = N.max (watermark c this) (max_block c envs).
Proof.
  revert this.
  induction envs as [|env rest IH]; intros this Hord Hnd Hdone.
  - cbn. lia.
  - cbn [ordered_fetches forallb] in Hord. apply andb_true_iff in Hord.
    destruct Hord as [Hhead Hrest].
    cbn [completed] in Hdone.
    destruct (thrown (check c env this)) eqn:Hthrown; [discriminate|].
    cbn [tails map] in Hnd. rewrite nondecreasing_step in Hnd.
    apply andb_true_iff in Hnd. destruct Hnd as [Hw Hnd]. apply N.leb_le in Hw.
    unfold invoke_all. cbn [fold_left].
    fold (invoke_all c rest (after (check c env this))).
    rewrite IH; try assumption.
    + rewrite (completed_sets_watermark c env this Hthrown).
      unfold max_block, all_blocks. cbn [flat_map].
      rewrite fold_max_app, (ordered_last_is_max _ Hhead).
      fold (all_blocks c rest). lia.
    + rewrite (completed_sets_watermark c env this Hthrown). exact Hnd.
Qed.

(** *** No duplicate alerts *)

(** C1 (as amended). Take successive completed invocations of one
    check-method whose fetched lists are each in non-decreasing block order
    and whose last block numbers, with 0 standing for an empty fetch, do not
    decrease from one fetch to the next. Then an event alerted by one
    invocation is not alerted by any later one; and an invocation whose
    fetched list is the one of the invocation before it alerts nothing. *)
Theorem no_repeated_alerts (c : Category) (envs : list Collaborators)
    (this : ContractMonitor) :
  ordered_fetches c envs = true ->
  nondecreasing (tails c envs) = true ->
  completed c envs this = true ->
  (forall i j si ei sj ej e,
     (i < j)%nat ->
     nth_error (invocations c envs this) i = Some (si, ei) ->
     nth_error (invocations c envs this) j = Some (sj, ej) ->
     In e (alerted c ei si) ->
     ~ In e (alerted c ej sj)) /\
  (forall i si ei sj ej,
     nth_error (invocations c envs this) i = Some (si, ei) ->
     nth_error (invocations c envs this) (S i) = Some (sj, ej) ->
     fetched c ej = fetched c ei ->
     alerted c ej sj = [] /\ alerts (logs (check c ej sj)) = []).
Proof.
  intros Hord Htails Hdone. split.
  - revert this Hord Htails Hdone.
    induction envs as [|env rest IH];
      intros this Hord Htails Hdone i j si ei sj ej e Hij Hi Hj Hin Hagain.
    + destruct i; discriminate.
    + destruct j as [|j]; [lia|].
      pose proof Hord as Hord'. pose proof Hdone as Hdone'.
      cbn [ordered_fetches forallb] in Hord. apply andb_true_iff in Hord.
      destruct Hord as [Hhead Hrest].
      cbn [completed] in Hdone.
      destruct (thrown (check c env this)) eqn:Hthrown; [discriminate|].
      cbn [tails map] in Htails.
      destruct (nondecreasing_cons _ _ Htails) as [Htails' Hbound].
      cbn [invocations nth_error] in Hj.
      destruct i as [|i]; cbn [invocations nth_error] in Hi.
      * inversion Hi; subst si ei.
        apply alerted_are_new in Hin. destruct Hin as [Hfetched _].
        pose proof (ordered_below_last _ _ Hhead Hfetched) as Hbelow.
        assert (Habove : (getLastSeenBlockNumber (fetched c env) < blockNumberOf e)%N).
        { apply (later_alerts_above c _ rest (after (check c env this)) Hdone)
            with (i := j) (s := sj) (env := ej); try assumption.
          rewrite (completed_sets_watermark c env this Hthrown). lia. }
        lia.
      * apply (IH _ Hrest Htails' Hdone i j si ei sj ej e); try assumption. lia.
  - intros i si ei sj ej Hi Hj Hsame.
    destruct (invocation_facts c envs this i si ei Hord Hdone Hi)
      as [Hordered [Hthrown Hnext]].
    specialize (Hnext sj ej Hj). subst sj.
    assert (Hnone : alerted c ej (after (check c ei si)) = []).
    { apply no_member_nil. intros e He.
      apply alerted_are_new in He. destruct He as [Hfetched Hlt].
      rewrite (completed_sets_watermark c ei si Hthrown) in Hlt.
      rewrite Hsame in Hfetched.
      pose proof (ordered_below_last _ _ Hordered Hfetched). lia. }
    split; [exact Hnone|].
    pose proof (one_alert_per_alerted_event c ej (after (check c ei si))) as Hlen.
    rewrite Hnone in Hlen. cbn [List.length] in Hlen.
    now apply length_zero_iff_nil.
Qed.

(** *** Watermarks *)

(** C2 (as amended). An invocation whose fetched list is empty completes,
    alerts nothing, leaves the other categories' watermarks alone, and
    leaves its own category's watermark at 0, whatever it was before. *)
Theorem empty_fetch_resets_watermark (c : Category) (env : Collaborators)
    (this : ContractMonitor) :
  fetched c env = [] ->
  thrown (check c env this) = None /\
  watermark c (after (check c env this)) = 0%N /\
  alerts (logs (check c env this)) = [] /\
  (forall c', c <> c' -> watermark c' (after (check c env this)) = watermark c' this).
Proof.
  intro Hempty.
  assert (Hthrown : thrown (check c env this) = None).
  { destruct c; cbn [fetched check] in *; apply map_eq_nil in Hempty.
    - unfold checkForNewSponsors, newSponsorEvents. now rewrite Hempty.
    - unfold checkForNewLiquidations, newLiquidationEvents. now rewrite Hempty.
    - unfold checkForNewDisputeEvents, newDisputeEvents. now rewrite Hempty.
    - unfold checkForNewDisputeSettlementEvents, newDisputeSettlementEvents.
      now rewrite Hempty. }
  split; [exact Hthrown|]. split; [|split].
  - rewrite (completed_sets_watermark c env this Hthrown), Hempty. reflexivity.
  - apply length_zero_iff_nil. rewrite one_alert_per_alerted_event.
    apply length_zero_iff_nil, no_member_nil. intros e He.
    apply alerted_are_new in He. rewrite Hempty in He. now destruct He.
  - intros c' Hneq. now apply other_watermarks_kept.
Qed.

(** C3 (as amended). From a freshly constructed monitor, after any number
    of completed invocations of one check-method whose fetched lists are
    each in non-decreasing block order and whose last block numbers, with 0
    standing for an empty fetch, do not decrease from one fetch to the
    next, the category's watermark is the largest block number of all the
    fetches (0 when there was none), and the watermark never decreased
    along the way. *)
Theorem watermark_is_max_block (c : Category) (envs : list Collaborators)
    (config : ContractMonitorConfig) (props : EmpProps) :
  ordered_fetches c envs = true ->
  nondecreasing (tails c envs) = true ->
  completed c envs (constructor config props) = true ->
  watermark c (invoke_all c envs (constructor config props)) = max_block c envs /\
  nondecreasing (watermarks c envs (constructor config props)) = true.
Proof.
  intros Hord Htails Hdone.
  assert (Hfresh : watermark c (constructor config props) = 0%N)
    by (destruct c; reflexivity).
  split.
  - rewrite final_watermark; try assumption.
    + rewrite Hfresh. lia.
    + rewrite Hfresh. now apply nondecreasing_zero.
  - rewrite (watermarks_are_tails c envs _ Hdone), Hfresh.
    now apply nondecreasing_zero.
Qed.

(** *** Liquidations: missing prices and zero divisors *)

(** The body of the liquidation loop throws exactly on an arithmetic
    fault. *)
Lemma liquidation_body_returns (this : ContractMonitor) (env : Collaborators)
    (event : Liquidation.t) :
  JS.returns (liquidation_body this env event) = negb (arithmetic_fault env event).
Proof.
  unfold liquidation_body, arithmetic_fault.
  destruct (getHistoricalPrice _ _) as [p|]; [|reflexivity].
  unfold Calc.calculatePositionCRPercent, Calc.calculateDisputablePrice,
    BN.div, BN.mul.
  destruct (Liquidation.tokensOutstanding event * p =? 0)%Z; [reflexivity|].
  destruct (Liquidation.tokensOutstanding event =? 0)%Z; [reflexivity|].
  destruct (collateralRequirement (empContract env) =? 0)%Z; reflexivity.
Qed.

Lemma liquidation_body_throws (this : ContractMonitor) (env : Collaborators)
    (event : Liquidation.t) :
  arithmetic_fault env event = true ->
  liquidation_body this env event = JS.throw JS.DivisionByZero.
Proof.
  unfold liquidation_body, arithmetic_fault.
  destruct (getHistoricalPrice _ _) as [p|]; [|discriminate].
  unfold Calc.calculatePositionCRPercent, Calc.calculateDisputablePrice,
    BN.div, BN.mul.
  destruct (Liquidation.tokensOutstanding event * p =? 0)%Z; [reflexivity|].
  destruct (Liquidation.tokensOutstanding event =? 0)%Z; [reflexivity|].
  destruct (collateralRequirement (empContract env) =? 0)%Z;
    [reflexivity | discriminate].
Qed.

Lemma no_fault_all_return (this : ContractMonitor) (env : Collaborators)
    (events : list Liquidation.t) :
  existsb (arithmetic_fault env) events = false ->
  forallb (fun e => JS.returns (liquidation_body this env e)) events = true.
Proof.
  induction events as [|e rest IH]; cbn [existsb forallb]; intro Hnone;
    [reflexivity|].
  apply orb_false_iff in Hnone. destruct Hnone as [He Hrest].
  rewrite liquidation_body_returns, He. cbn [negb andb]. now apply IH.
Qed.




(** C8 (as amended). When the metrics of a new liquidation run into a zero
    divisor, [checkForNewLiquidations] throws there. What it has logged is
    what the loop logged for the new events before that one: no warn-level
    record and no alert for the event itself, none for the events after it.
    The monitor, and with it the liquidation watermark, is left as it
    was. *)
Theorem arithmetic_fault_aborts_pass (this : ContractMonitor) (env : Collaborators)
    (pre post : list Liquidation.t) (event : Liquidation.t) :
  newLiquidationEvents this env = pre ++ event :: post ->
  existsb (arithmetic_fault env) pre = false ->
  arithmetic_fault env event = true ->
  thrown (checkForNewLiquidations env this) = Some JS.DivisionByZero /\
  after (checkForNewLiquidations env this) = this /\
  alerted Liquidations env this = map LiquidationEvent pre /\
  logs (checkForNewLiquidations env this) =
    debug_record "Checking for new liquidation events" "lastLiquidationBlockNumber"
                 (lastLiquidationBlockNumber this)
    :: logged (fst (for_of (liquidation_body this env) pre)).
Proof.
  intros Hsplit Hpre Hfault.
  pose proof (for_of_throws (liquidation_body this env) pre post event
                JS.DivisionByZero (no_fault_all_return this env pre Hpre)
                (liquidation_body_throws this env event Hfault)) as Hloop.
  pose proof (for_of_returns _ _ (no_fault_all_return this env pre Hpre)) as Hpreloop.
  unfold alerted, iterations, checkForNewLiquidations.
  rewrite Hsplit, Hloop, Hpreloop. cbn [thrown after logs fst].
  repeat split.
  rewrite !map_map. cbn [fst]. reflexivity.
Qed.

(** *** The monitored address lists *)

(** Every check-method has the same shape: the opening record, the loop,
    and the watermark assignment unless the loop threw. *)
Lemma check_unfold (c : Category) (env : Collaborators) (this : ContractMonitor) :
  check c env this =
  {| logs := opening c this :: logged (iterations c env this);
     thrown := loop_error c env this;
     after := match loop_error c env this with
              | Some _ => this
              | None => set_watermark c (getLastSeenBlockNumber (fetched c env)) this
              end |}.
Proof.
  unfold iterations, loop_error.
  open_check c; cbn [fst snd opening set_watermark]; rewrite logged_relabel;
    try reflexivity;
    (rewrite getLastSeenBlockNumber_map; [reflexivity | intro; reflexivity]).
Qed.

Lemma for_of_related {E} (b1 b2 : E -> JS.Result (list LogRecord))
    (events : list E) :
  (forall e, related_results same_shape (b1 e) (b2 e)) ->
  snd (for_of b1 events) = snd (for_of b2 events) /\
  map fst (fst (for_of b1 events)) = map fst (fst (for_of b2 events)) /\
  Forall2 same_shape (logged (fst (for_of b1 events)))
                     (logged (fst (for_of b2 events))).
Proof.
  intro Hrel. induction events as [|e rest IH]; cbn [for_of].
  - repeat split. constructor.
  - specialize (Hrel e). unfold related_results in Hrel.
    destruct (b1 e) as [e1|l1], (b2 e) as [e2|l2]; try contradiction.
    + subst e2. repeat split. constructor.
    + destruct (for_of b1 rest) as [d1 x1], (for_of b2 rest) as [d2 x2].
      cbn [fst snd] in *. destruct IH as [Hx [Hd Hl]].
      repeat split; [exact Hx | cbn [map fst]; now f_equal |].
      unfold logged in *. cbn [map snd List.concat].
      now apply Forall2_app.
Qed.

Lemma for_of_ext {E} (b1 b2 : E -> JS.Result (list LogRecord)) (events : list E) :
  (forall e, b1 e = b2 e) -> for_of b1 events = for_of b2 events.
Proof.
  intro Hext. induction events as [|e rest IH]; cbn [for_of]; [reflexivity|].
  now rewrite Hext, IH.
Qed.

Lemma same_shape_refl (r : LogRecord) : same_shape r r.
Proof. repeat split. Qed.

(** The loop of an invocation under other monitored address lists: same
    error, same iterations, records of the same shape. *)
Lemma monitored_iterations (c : Category) (env : Collaborators)
    (this : ContractMonitor) (l d : list string) :
  loop_error c env (with_monitored l d this) = loop_error c env this /\
  map fst (iterations c env (with_monitored l d this)) =
    map fst (iterations c env this) /\
  Forall2 same_shape (logged (iterations c env (with_monitored l d this)))
                     (logged (iterations c env this)).
Proof.
  destruct c; cbn [loop_error iterations]; rewrite !logged_relabel, !map_map;
    cbn [fst].
  - change (newSponsorEvents (with_monitored l d this) env)
      with (newSponsorEvents this env).
    destruct (for_of_related (newSponsor_body (with_monitored l d this))
                (newSponsor_body this) (newSponsorEvents this env))
      as [Hx [Hd Hl]].
    { intro e. cbn. constructor; [repeat split | constructor]. }
    repeat split; [exact Hx | | exact Hl].
    rewrite <- !(map_map fst SponsorEvent). now f_equal.
  - change (newLiquidationEvents (with_monitored l d this) env)
      with (newLiquidationEvents this env).
    destruct (for_of_related (liquidation_body (with_monitored l d this) env)
                (liquidation_body this env) (newLiquidationEvents this env))
      as [Hx [Hd Hl]].
    { intro e. unfold liquidation_body.
      destruct (getHistoricalPrice _ _) as [p|].
      - destruct (Calc.calculatePositionCRPercent _ _ _) as [x|cr];
          cbn [JS.bind related_results]; [reflexivity|].
        destruct (Calc.calculateDisputablePrice _ _ _) as [x|dp];
          cbn [JS.bind related_results]; [reflexivity|].
        cbn. constructor; [repeat split | constructor].
      - cbn. constructor; [apply same_shape_refl|].
        constructor; [repeat split | constructor]. }
    repeat split; [exact Hx | | exact Hl].
    rewrite <- !(map_map fst LiquidationEvent). now f_equal.
  - change (newDisputeEvents (with_monitored l d this) env)
      with (newDisputeEvents this env).
    destruct (for_of_related (dispute_body (with_monitored l d this))
                (dispute_body this) (newDisputeEvents this env))
      as [Hx [Hd Hl]].
    { intro e. cbn. constructor; [repeat split | constructor]. }
    repeat split; [exact Hx | | exact Hl].
    rewrite <- !(map_map fst DisputeEvent). now f_equal.
  - change (newDisputeSettlementEvents (with_monitored l d this) env)
      with (newDisputeSettlementEvents this env).
    destruct (for_of_related (disputeSettlement_body (with_monitored l d this))
                (disputeSettlement_body this) (newDisputeSettlementEvents this env))
      as [Hx [Hd Hl]].
    { intro e. cbn. constructor; [repeat split | constructor]. }
    repeat split; [exact Hx | | exact Hl].
    rewrite <- !(map_map fst DisputeSettlementEvent). now f_equal.
Qed.

(** With lists that have the same members, the iterations are the same. *)
Lemma monitored_iterations_same (c : Category) (env : Collaborators)
    (this : ContractMonitor) (l d : list string) :
  (forall a, (JS.indexOf l a =? -1)%Z =
             (JS.indexOf (monitoredLiquidators this) a =? -1)%Z) ->
  (forall a, (JS.indexOf d a =? -1)%Z =
             (JS.indexOf (monitoredDisputers this) a =? -1)%Z) ->
  iterations c env (with_monitored l d this) = iterations c env this.
Proof.
  intros Hl Hd. destruct c; cbn [iterations]; f_equal; f_equal.
  - apply for_of_ext. intro e. unfold newSponsor_body, newSponsor_mrkdwn.
    cbn [monitoredLiquidators monitoredDisputers empProps with_monitored].
    now rewrite Hl, Hd.
  - apply for_of_ext. intro e.
    unfold liquidation_body, liquidation_alert, liquidation_mrkdwn.
    cbn [monitoredLiquidators monitoredDisputers empProps with_monitored].
    now rewrite Hl.
  - apply for_of_ext. intro e. unfold dispute_body, dispute_mrkdwn.
    cbn [monitoredLiquidators monitoredDisputers empProps with_monitored].
    now rewrite !Hl, !Hd.
  - apply for_of_ext. intro e.
    unfold disputeSettlement_body, disputeSettlement_mrkdwn.
    cbn [monitoredLiquidators monitoredDisputers empProps with_monitored].
    now rewrite !Hl, !Hd.
Qed.

Lemma indexOf_from_member (i : Z) (items : list string) (x : string) :
  (0 <= i)%Z ->
  negb (JS.indexOf_from i items x =? -1)%Z = member x items.
Proof.
  revert i. induction items as [|y rest IH]; intros i Hi; cbn [JS.indexOf_from member existsb].
  - reflexivity.
  - destruct (String.eqb y x); cbn [orb].
    + destruct (Z.eqb_spec i (-1)); [lia | reflexivity].
    + apply IH. lia.
Qed.

(** [indexOf] answers -1 exactly for the addresses that are not members. *)
Lemma indexOf_member (items : list string) (x : string) :
  negb (JS.indexOf items x =? -1)%Z = member x items.
Proof. apply indexOf_from_member. lia. Qed.

Lemma for_of_related_by {E} (R : E -> list LogRecord -> list LogRecord -> Prop)
    (b1 b2 : E -> JS.Result (list LogRecord)) (events : list E) :
  (forall e, match b1 e, b2 e with
             | inl x, inl y => x = y
             | inr r1, inr r2 => R e r1 r2
             | _, _ => False
             end) ->
  Forall2 (fun it1 it2 => fst it1 = fst it2 /\ R (fst it1) (snd it1) (snd it2))
          (fst (for_of b1 events)) (fst (for_of b2 events)).
Proof.
  intro Hrel. induction events as [|e rest IH]; cbn [for_of]; [constructor|].
  specialize (Hrel e).
  destruct (b1 e) as [e1|l1], (b2 e) as [e2|l2]; try contradiction;
    [constructor|].
  destruct (for_of b1 rest) as [d1 x1], (for_of b2 rest) as [d2 x2].
  cbn [fst] in *. constructor; [split; [reflexivity | exact Hrel] | exact IH].
Qed.

Lemma Forall2_map_both {A B A' B'} (P : A -> B -> Prop) (Q : A' -> B' -> Prop)
    (f : A -> A') (g : B -> B') (l1 : list A) (l2 : list B) :
  (forall a b, P a b -> Q (f a) (g b)) ->
  Forall2 P l1 l2 -> Forall2 Q (map f l1) (map g l2).
Proof.
  intros Hpq Hall. induction Hall as [|a b l1 l2 Hab _ IH]; cbn [map];
    constructor; [now apply Hpq | exact IH].
Qed.

(** The iterations of an invocation under given monitored lists are those
    of the invocation under empty lists, with the annotations put into the
    alerts. *)
Lemma annotated_iterations (c : Category) (env : Collaborators)
    (this : ContractMonitor) (l d : list string) :
  Forall2 (fun it it0 =>
             fst it = fst it0 /\
             Forall2 (fun actual base => annotates (annotations l d (fst it)) base actual)
                     (snd it) (snd it0))
          (iterations c env (with_monitored l d this))
          (iterations c env (with_monitored [] [] this)).
Proof.
  destruct c; cbn [iterations].
  - change (newSponsorEvents (with_monitored l d this) env)
      with (newSponsorEvents (with_monitored [] [] this) env).
    apply (Forall2_map_both
             (fun it1 it2 : NewSponsor.t * list LogRecord =>
                fst it1 = fst it2 /\
                Forall2 (fun actual base =>
                           annotates (annotations l d (SponsorEvent (fst it1))) base actual)
                        (snd it1) (snd it2))).
    { intros a b [Hfst Hsnd]. cbn [fst snd]. split; [now rewrite Hfst | exact Hsnd]. }
    apply (for_of_related_by
             (fun e r1 r2 =>
                Forall2 (fun actual base =>
                           annotates (annotations l d (SponsorEvent e)) base actual) r1 r2)).
    intro e. cbv beta iota delta [newSponsor_body JS.ret]. constructor; [|constructor].
    unfold annotates. cbn [level info_record at_ message fields annotations].
    repeat split. eexists _, [_]. split; [cbn [List.length]; reflexivity|].
    cbn [map combine weave]. split.
    2:{ unfold newSponsor_mrkdwn.
        cbn [monitoredLiquidators monitoredDisputers empProps with_monitored].
        rewrite !indexOf_member. reflexivity. }
    reflexivity.
  - change (newLiquidationEvents (with_monitored l d this) env)
      with (newLiquidationEvents (with_monitored [] [] this) env).
    apply (Forall2_map_both
             (fun it1 it2 : Liquidation.t * list LogRecord =>
                fst it1 = fst it2 /\
                Forall2 (fun actual base =>
                           annotates (annotations l d (LiquidationEvent (fst it1))) base actual)
                        (snd it1) (snd it2))).
    { intros a b [Hfst Hsnd]. cbn [fst snd]. split; [now rewrite Hfst | exact Hsnd]. }
    apply (for_of_related_by
             (fun e r1 r2 =>
                Forall2 (fun actual base =>
                           annotates (annotations l d (LiquidationEvent e)) base actual) r1 r2)).
    intro e.
    assert (Halert : forall price cr s1 s2,
              annotates (annotations l d (LiquidationEvent e))
                (liquidation_alert (with_monitored [] [] this) e price cr s1 s2)
                (liquidation_alert (with_monitored l d this) e price cr s1 s2)).
    { intros price cr s1 s2. unfold annotates.
      cbn [level liquidation_alert info_record at_ message fields annotations].
      repeat split. eexists _, [_]. split; [cbn [List.length]; reflexivity|].
      cbn [map combine weave]. split.
      2:{ unfold liquidation_mrkdwn.
          cbn [monitoredLiquidators monitoredDisputers empProps with_monitored].
          rewrite !indexOf_member. reflexivity. }
      reflexivity. }
    unfold liquidation_body.
    destruct (getHistoricalPrice _ _) as [p|].
    + destruct (Calc.calculatePositionCRPercent _ _ _) as [x|cr];
        cbn [JS.bind]; [reflexivity|].
      destruct (Calc.calculateDisputablePrice _ _ _) as [x|dp];
        cbn [JS.bind]; [reflexivity|].
      cbn [JS.ret]. constructor; [apply Halert | constructor].
    + cbn [JS.ret]. constructor; [reflexivity|].
      constructor; [apply Halert | constructor].
  - change (newDisputeEvents (with_monitored l d this) env)
      with (newDisputeEvents (with_monitored [] [] this) env).
    apply (Forall2_map_both
             (fun it1 it2 : Dispute.t * list LogRecord =>
                fst it1 = fst it2 /\
                Forall2 (fun actual base =>
                           annotates (annotations l d (DisputeEvent (fst it1))) base actual)
                        (snd it1) (snd it2))).
    { intros a b [Hfst Hsnd]. cbn [fst snd]. split; [now rewrite Hfst | exact Hsnd]. }
    apply (for_of_related_by
             (fun e r1 r2 =>
                Forall2 (fun actual base =>
                           annotates (annotations l d (DisputeEvent e)) base actual) r1 r2)).
    intro e. cbv beta iota delta [dispute_body JS.ret]. constructor; [|constructor].
    unfold annotates. cbn [level info_record at_ message fields annotations].
    repeat split. eexists _, [_; _]. split; [cbn [List.length]; reflexivity|].
    cbn [map combine weave]. split.
    2:{ unfold dispute_mrkdwn.
        cbn [monitoredLiquidators monitoredDisputers empProps with_monitored].
        rewrite !indexOf_member.
        rewrite <- (append_assoc " initiated dispute against liquidator ").
        reflexivity. }
    unfold dispute_mrkdwn.
    cbn [monitoredLiquidators monitoredDisputers empProps with_monitored].
    rewrite !indexOf_member. cbn [member existsb].
    rewrite <- (append_assoc " initiated dispute against liquidator ").
    reflexivity.
  - change (newDisputeSettlementEvents (with_monitored l d this) env)
      with (newDisputeSettlementEvents (with_monitored [] [] this) env).
    apply (Forall2_map_both
             (fun it1 it2 : DisputeSettlement.t * list LogRecord =>
                fst it1 = fst it2 /\
                Forall2 (fun actual base =>
                           annotates (annotations l d (DisputeSettlementEvent (fst it1)))
                                     base actual)
                        (snd it1) (snd it2))).
    { intros a b [Hfst Hsnd]. cbn [fst snd]. split; [now rewrite Hfst | exact Hsnd]. }
    apply (for_of_related_by
             (fun e r1 r2 =>
                Forall2 (fun actual base =>
                           annotates (annotations l d (DisputeSettlementEvent e)) base actual)
                        r1 r2)).
    intro e. cbv beta iota delta [disputeSettlement_body JS.ret]. constructor; [|constructor].
    unfold annotates. cbn [level info_record at_ message fields annotations].
    repeat split. eexists _, [_; _]. split; [cbn [List.length]; reflexivity|].
    cbn [map combine weave]. split.
    2:{ unfold disputeSettlement_mrkdwn.
        cbn [monitoredLiquidators monitoredDisputers empProps with_monitored].
        rewrite !indexOf_member.
        rewrite <- (append_assoc "Dispute between liquidator ").
        rewrite <- (append_assoc " and disputer ").
        reflexivity. }
    unfold disputeSettlement_mrkdwn.
    cbn [monitoredLiquidators monitoredDisputers empProps with_monitored].
    rewrite !indexOf_member. cbn [member existsb].
    rewrite <- (append_assoc "Dispute between liquidator ").
    rewrite <- (append_assoc " and disputer ").
    reflexivity.
Qed.

(** C9. Run a check-method on the same collaborators from two monitors
    that differ only in their monitored address lists. Both runs throw or
    complete alike, alert the same events, log records of the same levels
    and messages in the same order, and assign the same watermarks. What
    the lists change is the annotations alone: the records of a run are
    those of the run with empty lists, except that the text of each alert
    has, at each place where an annotation can stand, the annotation when
    the address there is a member of the list and nothing when it is not.
    So lists with the same members give identical records. *)
Theorem monitored_sets_only_annotate (c : Category) (env : Collaborators)
    (this : ContractMonitor) (l d : list string) :
  (logs (check c env (with_monitored l d this)) =
     opening c this :: logged (iterations c env (with_monitored l d this)) /\
   logs (check c env (with_monitored [] [] this)) =
     opening c this :: logged (iterations c env (with_monitored [] [] this)) /\
   Forall2 (fun it it0 =>
              fst it = fst it0 /\
              Forall2 (fun actual base => annotates (annotations l d (fst it)) base actual)
                      (snd it) (snd it0))
           (iterations c env (with_monitored l d this))
           (iterations c env (with_monitored [] [] this))) /\
  thrown (check c env (with_monitored l d this)) = thrown (check c env this) /\
  alerted c env (with_monitored l d this) = alerted c env this /\
  Forall2 same_shape (logs (check c env (with_monitored l d this)))
                     (logs (check c env this)) /\
  after (check c env (with_monitored l d this)) =
    with_monitored l d (after (check c env this)) /\
  (forall c', watermark c' (after (check c env (with_monitored l d this))) =
              watermark c' (after (check c env this))) /\
  ((forall a, (JS.indexOf l a =? -1)%Z =
              (JS.indexOf (monitoredLiquidators this) a =? -1)%Z) ->
   (forall a, (JS.indexOf d a =? -1)%Z =
              (JS.indexOf (monitoredDisputers this) a =? -1)%Z) ->
   logs (check c env (with_monitored l d this)) = logs (check c env this)).
Proof.
  split.
  { rewrite !check_unfold. cbn [logs].
    split; [destruct c; reflexivity|]. split; [destruct c; reflexivity|].
    apply annotated_iterations. }
  destruct (monitored_iterations c env this l d) as [Hx [Hd Hl]].
  rewrite !check_unfold. cbn [thrown logs after]. rewrite Hx.
  assert (Hafter :
    match loop_error c env this with
    | Some _ => with_monitored l d this
    | None => set_watermark c (getLastSeenBlockNumber (fetched c env))
                (with_monitored l d this)
    end =
    with_monitored l d
      match loop_error c env this with
      | Some _ => this
      | None => set_watermark c (getLastSeenBlockNumber (fetched c env)) this
      end).
  { destruct (loop_error c env this); [reflexivity|]. destruct c; reflexivity. }
  split; [reflexivity|]. split; [exact Hd|]. split; [|split; [exact Hafter|split]].
  - constructor; [|exact Hl]. destruct c; repeat split.
  - intro c'. rewrite Hafter. destruct c'; reflexivity.
  - intros Hsl Hsd. rewrite (monitored_iterations_same c env this l d Hsl Hsd).
    destruct c; reflexivity.
Qed.

(** *** The token symbol of a liquidation alert *)

(** No property named [syntheticCurrencySymbol] is on the instance or its
    prototype: the symbol sits inside [empProps]. *)
Lemma this_syntheticCurrencySymbol (this : ContractMonitor) :
  this_get this "syntheticCurrencySymbol" = JS.Undefined.
Proof. reflexivity. Qed.

Lemma empProps_syntheticCurrencySymbol (this : ContractMonitor) :
  match this_get this "empProps" with
  | JS.Obj props => JS.get props "syntheticCurrencySymbol"
  | _ => JS.Undefined
  end = JS.Str (syntheticCurrencySymbol (empProps this)).
Proof. reflexivity. Qed.

Lemma peel_prefix (a rest target : string) :
  (exists before behind, rest = before +s target +s behind) ->
  exists before behind, a +s rest = before +s target +s behind.
Proof.
  intros [before [behind ->]]. exists (a +s before), behind.
  now rewrite append_assoc.
Qed.

(** Where the token symbol should stand, a liquidation message reads
    [undefined]. *)
Lemma liquidation_mrkdwn_symbol (this : ContractMonitor) (event : Liquidation.t)
    (price : option Z) (crRequirementString : Z) (s1 s2 : string) :
  exists before behind,
    liquidation_mrkdwn this event price crRequirementString s1 s2 =
    before +s " undefined tokens. " +s behind.
Proof.
  unfold liquidation_mrkdwn. rewrite this_syntheticCurrencySymbol.
  cbn [JS.toString]. do 12 apply peel_prefix.
  exists EmptyString. eexists. cbn [String.append]. reflexivity.
Qed.

Lemma liquidation_body_symbol (this : ContractMonitor) (env : Collaborators)
    (symbol : string) (event : Liquidation.t) :
  liquidation_body (with_syntheticCurrencySymbol symbol this) env event =
  liquidation_body this env event.
Proof. reflexivity. Qed.

(** C10. The token-symbol position of every liquidation alert is built from
    [this.syntheticCurrencySymbol], a property the constructor never
    assigns: it reads [undefined], so every alert of
    [checkForNewLiquidations] carries the text [undefined] there, and what
    the method logs is the same whatever symbol [empProps] was configured
    with. *)
Theorem liquidation_alert_symbol_undefined (this : ContractMonitor)
    (env : Collaborators) (symbol : string) :
  this_get this "syntheticCurrencySymbol" = JS.Undefined /\
  (forall r, In r (alerts (logs (checkForNewLiquidations env this))) ->
     exists before behind,
       mrkdwn r = JS.Str (before +s " undefined tokens. " +s behind)) /\
  logs (checkForNewLiquidations env (with_syntheticCurrencySymbol symbol this)) =
    logs (checkForNewLiquidations env this) /\
  thrown (checkForNewLiquidations env (with_syntheticCurrencySymbol symbol this)) =
    thrown (checkForNewLiquidations env this).
Proof.
  split; [reflexivity|]. split.
  - intros r Hr.
    change (checkForNewLiquidations env this) with (check Liquidations env this) in Hr.
    rewrite check_unfold in Hr. cbn [logs alerts filter opening debug_record level
      Level_eqb] in Hr.
    fold (alerts (logged (iterations Liquidations env this))) in Hr.
    rewrite alerts_logged in Hr. apply in_flat_map in Hr.
    destruct Hr as [it [Hit Hr]].
    cbn [iterations] in Hit. apply in_map_iff in Hit.
    destruct Hit as [it0 [<- Hit0]]. cbn [snd] in Hr.
    apply for_of_fst_In in Hit0. destruct Hit0 as [_ Hbody].
    unfold liquidation_body in Hbody.
    destruct (getHistoricalPrice _ _) as [p|].
    + destruct (Calc.calculatePositionCRPercent _ _ _) as [x|cr]; [discriminate|].
      cbn [JS.bind] in Hbody.
      destruct (Calc.calculateDisputablePrice _ _ _) as [x|dp]; [discriminate|].
      cbn [JS.bind] in Hbody. inversion Hbody as [Hrec]. rewrite <- Hrec in Hr.
      destruct Hr as [<-|[]].
      destruct (liquidation_mrkdwn_symbol this (fst it0) (Some p)
                  (BN.muln (collateralRequirement (empContract env)) 100)
                  (formatDecimalString (Some cr)) (formatDecimalString (Some dp)))
        as [before [behind Heq]].
      exists before, behind. unfold liquidation_alert, mrkdwn, info_record.
      cbn [fields JS.get String.eqb Ascii.eqb Bool.eqb]. now rewrite Heq.
    + inversion Hbody as [Hrec]. rewrite <- Hrec in Hr.
      destruct Hr as [<-|[]].
      destruct (liquidation_mrkdwn_symbol this (fst it0) None
                  (BN.muln (collateralRequirement (empContract env)) 100)
                  "[Invalid]" "[Invalid]")
        as [before [behind Heq]].
      exists before, behind. unfold liquidation_alert, mrkdwn, info_record.
      cbn [fields JS.get String.eqb Ascii.eqb Bool.eqb]. now rewrite Heq.
  - unfold checkForNewLiquidations.
    change (newLiquidationEvents (with_syntheticCurrencySymbol symbol this) env)
      with (newLiquidationEvents this env).
    rewrite (for_of_ext (liquidation_body (with_syntheticCurrencySymbol symbol this) env)
               (liquidation_body this env) _
               (liquidation_body_symbol this env symbol)).
    destruct (for_of (liquidation_body this env) _) as [done [err|]];
      split; reflexivity.
Qed.

(** *** The fixed-point computations *)

(** C5. [calculatePositionCRPercent] multiplies the collateral by 1e18
    twice, divides by the product of the tokens outstanding and the price,
    and multiplies the quotient by 100, over exact integers; on 2000e18,
    1000e18 and a price of 1e18 it returns 200e18. *)
Theorem calculatePositionCRPercent_exact :
  (forall collateral tokensOutstanding tokenPrice : Z,
     (tokensOutstanding * tokenPrice <> 0)%Z ->
     Calc.calculatePositionCRPercent collateral tokensOutstanding tokenPrice =
     JS.ret (Z.quot (collateral * 10 ^ 18 * 10 ^ 18)
                    (tokensOutstanding * tokenPrice) * 100)%Z) /\
  Calc.calculatePositionCRPercent (2000 * 10 ^ 18) (1000 * 10 ^ 18) (10 ^ 18) =
  JS.ret (200 * 10 ^ 18)%Z.
Proof.
  split; [|reflexivity].
  intros collateral tokensOutstanding tokenPrice Hden.
  unfold Calc.calculatePositionCRPercent, BN.mul, BN.muln, BN.toWei_1.
  now rewrite (div_returns _ _ Hden).
Qed.

(** C6. [calculateDisputablePrice] multiplies the liquidated collateral by
    1e18, divides by the liquidated tokens, multiplies by 1e18 and divides
    by the collateral requirement, over exact integers in that order; on a
    requirement of 1.2e18, 1200e18 of collateral and 1000e18 tokens it
    returns 1e18. *)
Theorem calculateDisputablePrice_exact :
  (forall crRequirement liquidatedCollateral liquidatedTokens : Z,
     liquidatedTokens <> 0%Z ->
     crRequirement <> 0%Z ->
     Calc.calculateDisputablePrice crRequirement liquidatedCollateral liquidatedTokens =
     JS.ret (Z.quot (Z.quot (liquidatedCollateral * 10 ^ 18) liquidatedTokens * 10 ^ 18)
                    crRequirement)%Z) /\
  Calc.calculateDisputablePrice (12 * 10 ^ 17) (1200 * 10 ^ 18) (1000 * 10 ^ 18) =
  JS.ret (10 ^ 18)%Z.
Proof.
  split; [|reflexivity].
  intros crRequirement liquidatedCollateral liquidatedTokens Htokens Hcr.
  unfold Calc.calculateDisputablePrice, BN.mul, BN.toWei_1.
  rewrite (div_returns _ _ Htokens). cbn [JS.bind JS.ret].
  now rewrite (div_returns _ _ Hcr).
Qed.

(** C7 (as amended). [calculatePositionCRPercent] throws exactly when the
    product of the tokens outstanding and the price is zero, so whenever
    the tokens outstanding are zero; [calculateDisputablePrice] throws
    exactly when the liquidated tokens or the collateral requirement is
    zero. In those cases neither returns a value. Neither checks a divisor
    itself: what is thrown is what bn.js's [div] throws on a zero divisor,
    an [Error] whose message is [Assertion failed]. *)
Theorem zero_divisor_throws :
  (forall a : Z, BN.div a 0 = JS.throw JS.DivisionByZero) /\
  (JS.name JS.DivisionByZero = "Error" /\
   JS.message JS.DivisionByZero = "Assertion failed") /\
  (forall collateral tokensOutstanding tokenPrice : Z,
     Calc.calculatePositionCRPercent collateral tokensOutstanding tokenPrice =
       JS.throw JS.DivisionByZero
     <-> (tokensOutstanding * tokenPrice = 0)%Z) /\
  (forall collateral tokenPrice : Z,
     Calc.calculatePositionCRPercent collateral 0 tokenPrice =
       JS.throw JS.DivisionByZero) /\
  (forall crRequirement liquidatedCollateral liquidatedTokens : Z,
     Calc.calculateDisputablePrice crRequirement liquidatedCollateral liquidatedTokens =
       JS.throw JS.DivisionByZero
     <-> (liquidatedTokens = 0 \/ crRequirement = 0)%Z) /\
  (forall collateral tokensOutstanding tokenPrice : Z,
     JS.returns (Calc.calculatePositionCRPercent collateral tokensOutstanding tokenPrice) =
     negb (tokensOutstanding * tokenPrice =? 0)%Z) /\
  (forall crRequirement liquidatedCollateral liquidatedTokens : Z,
     JS.returns (Calc.calculateDisputablePrice crRequirement liquidatedCollateral
                   liquidatedTokens) =
     negb ((liquidatedTokens =? 0)%Z || (crRequirement =? 0)%Z)).
Proof.
  split; [intro a; reflexivity|]. split; [split; reflexivity|].
  split; [|split; [|split; [|split]]].
  - intros collateral tokensOutstanding tokenPrice.
    unfold Calc.calculatePositionCRPercent, BN.div, BN.mul.
    destruct (Z.eqb_spec (tokensOutstanding * tokenPrice) 0) as [Hzero|Hnonzero];
      cbn [JS.bind JS.throw JS.ret]; split; intro Hyp;
      try reflexivity; try assumption; try discriminate; contradiction.
  - intros collateral tokenPrice. reflexivity.
  - intros crRequirement liquidatedCollateral liquidatedTokens.
    unfold Calc.calculateDisputablePrice, BN.div, BN.mul.
    destruct (Z.eqb_spec liquidatedTokens 0) as [Htokens|Htokens];
      cbn [JS.bind JS.throw JS.ret].
    + split; [intros _; now left | reflexivity].
    + destruct (Z.eqb_spec crRequirement 0) as [Hcr|Hcr].
      * split; [intros _; now right | reflexivity].
      * split; [discriminate | intros [Hyp|Hyp]; contradiction].
  - intros collateral tokensOutstanding tokenPrice.
    unfold Calc.calculatePositionCRPercent, BN.div, BN.mul.
    now destruct (tokensOutstanding * tokenPrice =? 0)%Z.
  - intros crRequirement liquidatedCollateral liquidatedTokens.
    unfold Calc.calculateDisputablePrice, BN.div, BN.mul.
    destruct (liquidatedTokens =? 0)%Z; [reflexivity|].
    cbn [JS.bind JS.ret]. now destruct (crRequirement =? 0)%Z.
Qed.

(* ================================================================== *)
(** ** Further properties of the code *)

(** *** What a pass selects *)

(** X1. On a non-empty list [getLastSeenBlockNumber] is the block number of
    the element in last position, whatever the order of the list. *)
Theorem getLastSeenBlockNumber_last {E} `{Event E} (events : list E) (event : E) :
  getLastSeenBlockNumber (events ++ [event]) = blockNumberOf event.
Proof.
  induction events as [|a rest IH]; [reflexivity|].
  cbn [app]. destruct (rest ++ [event]) as [|b rest'] eqn:Hrest.
  - destruct rest; discriminate.
  - rewrite getLastSeenBlockNumber_cons. exact IH.
Qed.

Lemma filter_map_swap {A B} (f : A -> B) (q : B -> bool) (l : list A) :
  filter q (map f l) = map f (filter (fun a => q (f a)) l).
Proof.
  induction l as [|a l IH]; cbn [map filter]; [reflexivity|].
  destruct (q (f a)); cbn [map]; now rewrite IH.
Qed.

Lemma for_of_fst_returns {E} (body : E -> JS.Result (list LogRecord))
    (events : list E) :
  forallb (fun e => JS.returns (body e)) events = true ->
  map fst (fst (for_of body events)) = events /\ snd (for_of body events) = None.
Proof.
  intro Hall. rewrite (for_of_returns body events Hall). cbn [fst snd].
  split; [|reflexivity]. rewrite map_map. cbn [fst]. apply map_id.
Qed.

Lemma forallb_const_true {A} (f : A -> bool) (l : list A) :
  (forall a, f a = true) -> forallb f l = true.
Proof.
  intro Hf. induction l as [|a l IH]; cbn [forallb]; [reflexivity|].
  now rewrite Hf, IH.
Qed.

Lemma logged_each {E} (records : E -> list LogRecord) (events : list E) :
  logged (map (fun e => (e, records e)) events) = flat_map records events.
Proof.
  unfold logged. rewrite map_map. cbn [snd]. now rewrite flat_map_concat_map.
Qed.

Lemma flat_map_singleton {A B} (f : A -> B) (l : list A) :
  flat_map (fun a => [f a]) l = map f l.
Proof.
  induction l as [|a l IH]; cbn [flat_map map app]; [reflexivity | now rewrite IH].
Qed.

(** X2. [checkForNewSponsors], [checkForNewDisputeEvents] and
    [checkForNewDisputeSettlementEvents] log the opening debug record with
    the watermark and then exactly one info alert, with the method's
    message and the event's text, for each fetched event whose block
    number is strictly above the watermark, in the order of the fetched
    list, and nothing else; the watermark is then what
    [getLastSeenBlockNumber] makes of the fetched list. *)
Theorem plain_pass_alerts_all_new (env : Collaborators) (this : ContractMonitor) :
  (logs (checkForNewSponsors env this) =
     {| level := debug;
        at_ := "ContractMonitor";
        message := "Checking for new sponsor events";
        fields := [("lastNewSponsorBlockNumber",
                     JS.Num (Z.of_N (lastNewSponsorBlockNumber this)))] |}
     :: map (fun event =>
               {| level := info;
                  at_ := "ContractMonitor";
                  message := "New Sponsor Alert 🐣!";
                  fields := [("mrkdwn", JS.Str (newSponsor_mrkdwn this event))] |})
            (filter (fun event =>
                       (lastNewSponsorBlockNumber this <? NewSponsor.blockNumber event)%N)
                    (getAllNewSponsorEvents (empEventClient env))) /\
   lastNewSponsorBlockNumber (after (checkForNewSponsors env this)) =
     getLastSeenBlockNumber (getAllNewSponsorEvents (empEventClient env))) /\
  (logs (checkForNewDisputeEvents env this) =
     {| level := debug;
        at_ := "ContractMonitor";
        message := "Checking for new dispute events";
        fields := [("lastDisputeBlockNumber",
                     JS.Num (Z.of_N (lastDisputeBlockNumber this)))] |}
     :: map (fun event =>
               {| level := info;
                  at_ := "ContractMonitor";
                  message := "Dispute Alert 👻!";
                  fields := [("mrkdwn", JS.Str (dispute_mrkdwn this event))] |})
            (filter (fun event =>
                       (lastDisputeBlockNumber this <? Dispute.blockNumber event)%N)
                    (getAllDisputeEvents (empEventClient env))) /\
   lastDisputeBlockNumber (after (checkForNewDisputeEvents env this)) =
     getLastSeenBlockNumber (getAllDisputeEvents (empEventClient env))) /\
  (logs (checkForNewDisputeSettlementEvents env this) =
     {| level := debug;
        at_ := "ContractMonitor";
        message := "Checking for new dispute settlement events";
        fields := [("lastDisputeSettlementBlockNumber",
                     JS.Num (Z.of_N (lastDisputeSettlementBlockNumber this)))] |}
     :: map (fun event =>
               {| level := info;
                  at_ := "ContractMonitor";
                  message := "Dispute Settlement Alert 👮‍♂️!";
                  fields := [("mrkdwn", JS.Str (disputeSettlement_mrkdwn this event))] |})
            (filter (fun event =>
                       (lastDisputeSettlementBlockNumber this
                          <? DisputeSettlement.blockNumber event)%N)
                    (getAllDisputeSettlementEvents (empEventClient env))) /\
   lastDisputeSettlementBlockNumber (after (checkForNewDisputeSettlementEvents env this)) =
     getLastSeenBlockNumber (getAllDisputeSettlementEvents (empEventClient env))).
Proof.
  split; [|split].
  - unfold checkForNewSponsors, newSponsorEvents.
    rewrite for_of_returns by now apply forallb_const_true.
    cbn [logs after lastNewSponsorBlockNumber set_lastNewSponsorBlockNumber].
    rewrite logged_each. unfold newSponsor_body, JS.ret. cbv beta iota.
    rewrite flat_map_singleton. split; reflexivity.
  - unfold checkForNewDisputeEvents, newDisputeEvents.
    rewrite for_of_returns by now apply forallb_const_true.
    cbn [logs after lastDisputeBlockNumber set_lastDisputeBlockNumber].
    rewrite logged_each. unfold dispute_body, JS.ret. cbv beta iota.
    rewrite flat_map_singleton. split; reflexivity.
  - unfold checkForNewDisputeSettlementEvents, newDisputeSettlementEvents.
    rewrite for_of_returns by now apply forallb_const_true.
    cbn [logs after lastDisputeSettlementBlockNumber
         set_lastDisputeSettlementBlockNumber].
    rewrite logged_each. unfold disputeSettlement_body, JS.ret. cbv beta iota.
    rewrite flat_map_singleton. split; reflexivity.
Qed.

Lemma existsb_first {A} (f : A -> bool) (l : list A) :
  existsb f l = true ->
  exists pre a post, l = pre ++ a :: post /\ existsb f pre = false /\ f a = true.
Proof.
  induction l as [|a l IH]; cbn [existsb]; intro Hex; [discriminate|].
  destruct (f a) eqn:Hfa.
  - exists [], a, l. repeat split. exact Hfa.
  - cbn [orb] in Hex. destruct (IH Hex) as [pre [b [post [-> [Hpre Hb]]]]].
    exists (a :: pre), b, post. repeat split; [|exact Hb].
    cbn [existsb]. now rewrite Hfa, Hpre.
Qed.

(** X3. [checkForNewLiquidations] throws exactly when the metrics of some
    new liquidation divide by zero, and what it throws is then the error
    of bn.js's division. Otherwise it logs the opening debug record and
    then, for each fetched liquidation whose block number is strictly above
    the watermark, in the order of the fetched list, one warn record if the
    price is missing followed by one info alert, and nothing else. *)
Theorem liquidation_pass_outcome (env : Collaborators) (this : ContractMonitor) :
  thrown (checkForNewLiquidations env this) =
    (if existsb (arithmetic_fault env) (newLiquidationEvents this env)
     then Some JS.DivisionByZero else None) /\
  (existsb (arithmetic_fault env) (newLiquidationEvents this env) = false ->
   exists alert : Liquidation.t -> LogRecord,
     (forall e, In e (newLiquidationEvents this env) ->
        level (alert e) = info /\ at_ (alert e) = "ContractMonitor" /\
        message (alert e) = "Liquidation Alert 🧙‍♂️!") /\
     logs (checkForNewLiquidations env this) =
       {| level := debug;
          at_ := "ContractMonitor";
          message := "Checking for new liquidation events";
          fields := [("lastLiquidationBlockNumber",
                       JS.Num (Z.of_N (lastLiquidationBlockNumber this)))] |}
       :: flat_map
            (fun e =>
               (if price_missing env e
                then [ {| level := warn;
                          at_ := "ContractMonitor";
                          message := "Could not get historical price for liquidation";
                          fields :=
                            [ ("price", JS.Null);
                              ("liquidationTime",
                                JS.Str (JS.decimal
                                          (liquidations (empContract env)
                                             (Liquidation.sponsor e)
                                             (Liquidation.liquidationId e)))) ] |} ]
                else []) ++ [alert e])
            (filter (fun e =>
                       (lastLiquidationBlockNumber this <? Liquidation.blockNumber e)%N)
                    (getAllLiquidationEvents (empEventClient env)))).
Proof.
  split.
  - change (checkForNewLiquidations env this) with (check Liquidations env this).
    rewrite check_unfold. cbn [thrown loop_error].
    destruct (existsb (arithmetic_fault env) (newLiquidationEvents this env)) eqn:Hfault.
    + destruct (existsb_first _ _ Hfault) as [pre [e [post [Hsplit [Hpre He]]]]].
      rewrite Hsplit.
      now rewrite (for_of_throws (liquidation_body this env) pre post e
                     JS.DivisionByZero (no_fault_all_return this env pre Hpre)
                     (liquidation_body_throws this env e He)).
    + exact (proj2 (for_of_fst_returns (liquidation_body this env)
                      (newLiquidationEvents this env)
                      (no_fault_all_return this env _ Hfault))).
  - intro Hnofault.
    exists (fun e => match liquidation_body this env e with
                     | inr records =>
                         last records (liquidation_alert this e None 0 "" "")
                     | inl _ => liquidation_alert this e None 0 "" ""
                     end).
    assert (Hrecords : forall e,
              arithmetic_fault env e = false ->
              exists alert,
                level alert = info /\ at_ alert = "ContractMonitor" /\
                message alert = "Liquidation Alert 🧙‍♂️!" /\
                liquidation_body this env e =
                  JS.ret ((if price_missing env e
                           then [price_warning
                                   (liquidations (empContract env) (Liquidation.sponsor e)
                                                 (Liquidation.liquidationId e))]
                           else []) ++ [alert])).
    { intros e He. pose proof (liquidation_body_returns this env e) as Hret.
      rewrite He in Hret. unfold liquidation_body, price_missing in *.
      destruct (getHistoricalPrice _ _) as [p|].
      - destruct (Calc.calculatePositionCRPercent _ _ _) as [x|cr]; [discriminate|].
        cbn [JS.bind] in *.
        destruct (Calc.calculateDisputablePrice _ _ _) as [x|dp]; [discriminate|].
        cbn [JS.bind].
        eexists. split; [|split; [|split]]; [| | |reflexivity]; reflexivity.
      - eexists. split; [|split; [|split]]; [| | |reflexivity]; reflexivity. }
    assert (Hfaults : forall e, In e (newLiquidationEvents this env) ->
              arithmetic_fault env e = false).
    { intros e He. destruct (arithmetic_fault env e) eqn:Hf; [|reflexivity].
      assert (Hex : existsb (arithmetic_fault env) (newLiquidationEvents this env) = true)
        by (apply existsb_exists; now exists e).
      congruence. }
    split.
    + intros e He. destruct (Hrecords e (Hfaults e He)) as [alert [Hl [Ha [Hm Hbody]]]].
      rewrite Hbody. unfold JS.ret. rewrite last_last. now repeat split.
    + unfold checkForNewLiquidations.
      rewrite (for_of_returns _ _ (no_fault_all_return this env _ Hnofault)).
      cbn [logs]. rewrite logged_each. unfold debug_record. f_equal.
      fold (newLiquidationEvents this env).
      revert Hfaults. generalize (newLiquidationEvents this env) as events.
      induction events as [|e rest IH]; intro Hfaults; [reflexivity|].
      cbn [flat_map]. rewrite IH by (intros e' He'; apply Hfaults; now right).
      f_equal.
      destruct (Hrecords e (Hfaults e (or_introl eq_refl)))
        as [alert [_ [_ [_ Hbody]]]].
      rewrite Hbody. unfold JS.ret. now rewrite last_last.
Qed.

(** X4. The comparison with the watermark is strict: after a completed
    invocation, an event whose block number is not above the last block
    number of that invocation's fetched list is not alerted by the next
    invocation, whether or not it had been fetched before. *)
Theorem event_at_watermark_block_skipped (c : Category) (env1 env2 : Collaborators)
    (this : ContractMonitor) (e : AnyEvent) :
  thrown (check c env1 this) = None ->
  (blockNumberOf e <= getLastSeenBlockNumber (fetched c env1))%N ->
  ~ In e (alerted c env2 (after (check c env1 this))).
Proof.
  intros Hthrown Hbelow Hin.
  apply alerted_are_new in Hin. destruct Hin as [_ Habove].
  rewrite (completed_sets_watermark c env1 this Hthrown) in Habove. lia.
Qed.

(** X5. An event of block 0 is never alerted, not even by a freshly
    constructed monitor. *)
Theorem block_zero_never_alerted (c : Category) (env : Collaborators)
    (this : ContractMonitor) (e : AnyEvent) :
  blockNumberOf e = 0%N -> ~ In e (alerted c env this).
Proof.
  intros Hzero Hin. apply alerted_are_new in Hin. destruct Hin as [_ Habove]. lia.
Qed.

(** *** How the check-methods compose *)

Lemma iterations_other_watermark (c c' : Category) (n : N) (env : Collaborators)
    (this : ContractMonitor) :
  c <> c' ->
  iterations c env (set_watermark c' n this) = iterations c env this /\
  loop_error c env (set_watermark c' n this) = loop_error c env this /\
  opening c (set_watermark c' n this) = opening c this.
Proof.
  intro Hneq. destruct c, c'; try contradiction; repeat split.
Qed.

Lemma set_watermark_swap (c c' : Category) (m n : N) (this : ContractMonitor) :
  c <> c' ->
  set_watermark c m (set_watermark c' n this) =
  set_watermark c' n (set_watermark c m this).
Proof.
  intro Hneq. destruct c, c'; try contradiction; reflexivity.
Qed.

(** The outcome of an invocation from a monitor in which another
    category's watermark was assigned. *)
Lemma check_other_watermark (c c' : Category) (n : N) (env : Collaborators)
    (this : ContractMonitor) :
  c <> c' ->
  check c env (set_watermark c' n this) =
  {| logs := logs (check c env this);
     thrown := thrown (check c env this);
     after := set_watermark c' n (after (check c env this)) |}.
Proof.
  intro Hneq. rewrite !check_unfold. cbn [logs thrown after].
  destruct (iterations_other_watermark c c' n env this Hneq) as [-> [-> ->]].
  destruct (loop_error c env this); [reflexivity|].
  now rewrite set_watermark_swap.
Qed.

(** X6. Check-methods of different categories do not interfere: what one
    logs, throws and alerts is the same whether or not the other ran
    before it, and the monitor after both is the same in either order. *)
Theorem categories_commute (c c' : Category) (env env' : Collaborators)
    (this : ContractMonitor) :
  c <> c' ->
  logs (check c env (after (check c' env' this))) = logs (check c env this) /\
  thrown (check c env (after (check c' env' this))) = thrown (check c env this) /\
  alerted c env (after (check c' env' this)) = alerted c env this /\
  after (check c env (after (check c' env' this))) =
    after (check c' env' (after (check c env this))).
Proof.
  intro Hneq.
  assert (Hneq' : c' <> c) by (intro Heq; apply Hneq; now symmetry).
  assert (Hafter : forall k e,
            after (check k e this) = this \/
            exists n, after (check k e this) = set_watermark k n this).
  { intros k e. rewrite check_unfold. cbn [after].
    destruct (loop_error k e this); [now left | right; eexists; reflexivity]. }
  unfold alerted.
  destruct (Hafter c' env') as [Hc'|[n Hc']];
    destruct (Hafter c env) as [Hc|[m Hc]]; rewrite Hc'.
  - repeat split. now rewrite Hc, Hc'.
  - repeat split. rewrite Hc, (check_other_watermark c' c m env' this Hneq').
    cbn [after]. now rewrite Hc'.
  - rewrite (check_other_watermark c c' n env this Hneq). cbn [logs thrown after].
    rewrite (proj1 (iterations_other_watermark c c' n env this Hneq)).
    repeat split. now rewrite Hc, Hc'.
  - rewrite (check_other_watermark c c' n env this Hneq). cbn [logs thrown after].
    rewrite (proj1 (iterations_other_watermark c c' n env this Hneq)).
    repeat split. rewrite Hc, (check_other_watermark c' c m env' this Hneq').
    cbn [after]. rewrite Hc'. now apply set_watermark_swap.
Qed.

(** X10. An invocation that throws leaves nothing behind: invoked again on
    the same collaborators, any number of times, the check-method starts
    from the same monitor each time, so it logs the same records, alerts
    the same events and throws again. *)
Theorem thrown_pass_repeats (c : Category) (env : Collaborators)
    (this : ContractMonitor) (err : JS.Error) (n : nat) :
  thrown (check c env this) = Some err ->
  invocations c (repeat env n) this = repeat (this, env) n /\
  invoke_all c (repeat env n) this = this.
Proof.
  intro Hthrown.
  pose proof (thrown_leaves_monitor c env this err Hthrown) as Hsame.
  induction n as [|n [IH1 IH2]]; [split; reflexivity|].
  cbn [repeat invocations]. unfold invoke_all in *. cbn [fold_left].
  rewrite Hsame. split; [now rewrite IH1 | exact IH2].
Qed.

(** X15. The watermark keeps no history: after a sequence of completed
    invocations it is the last block number of the last fetched list alone
    (0 if that list is empty), whatever was fetched before. *)
Theorem watermark_forgets_history (c : Category) (envs : list Collaborators)
    (env : Collaborators) (this : ContractMonitor) :
  completed c (envs ++ [env]) this = true ->
  watermark c (invoke_all c (envs ++ [env]) this) =
    getLastSeenBlockNumber (fetched c env).
Proof.
  revert this. induction envs as [|env0 rest IH]; intros this Hdone.
  - cbn [app completed] in Hdone.
    destruct (thrown (check c env this)) eqn:Hthrown; [discriminate|].
    unfold invoke_all. cbn [app fold_left].
    now apply completed_sets_watermark.
  - cbn [app completed] in Hdone.
    destruct (thrown (check c env0 this)); [discriminate|].
    unfold invoke_all. cbn [app fold_left].
    exact (IH _ Hdone).
Qed.

(** *** What a pass logs *)

(** The records a liquidation iteration logs: the alert, preceded by a
    warning exactly when the price is missing. *)
Lemma liquidation_body_records (this : ContractMonitor) (env : Collaborators)
    (event : Liquidation.t) (records : list LogRecord) :
  liquidation_body this env event = JS.ret records ->
  exists alert,
    level alert = info /\ at_ alert = "ContractMonitor" /\
    records = (if price_missing env event
               then [price_warning
                       (liquidations (empContract env) (Liquidation.sponsor event)
                                     (Liquidation.liquidationId event))]
               else []) ++ [alert].
Proof.
  unfold liquidation_body, price_missing. intro Hbody.
  destruct (getHistoricalPrice _ _) as [p|].
  - destruct (Calc.calculatePositionCRPercent _ _ _) as [x|cr]; [discriminate|].
    cbn [JS.bind] in Hbody.
    destruct (Calc.calculateDisputablePrice _ _ _) as [x|dp]; [discriminate|].
    cbn [JS.bind] in Hbody. inversion Hbody as [Hrec].
    eexists. split; [|split]; [| |reflexivity]; reflexivity.
  - inversion Hbody as [Hrec].
    eexists. split; [|split]; [| |reflexivity]; reflexivity.
Qed.

Lemma warnings_app (l1 l2 : list LogRecord) :
  warnings (l1 ++ l2) = warnings l1 ++ warnings l2.
Proof. apply filter_app. Qed.

(** X7. Every record a check-method logs is tagged [ContractMonitor]. The
    first record, and only the first, is logged at [debug] and carries the
    watermark the invocation started from; [checkForNewSponsors],
    [checkForNewDisputeEvents] and [checkForNewDisputeSettlementEvents] log
    everything else at [info], one record per alerted event. *)
Theorem log_levels (c : Category) (env : Collaborators) (this : ContractMonitor) :
  (exists first rest,
     logs (check c env this) = first :: rest /\
     level first = debug /\
     map snd (fields first) = [JS.Num (Z.of_N (watermark c this))] /\
     Forall (fun r => level r <> debug) rest /\
     (c <> Liquidations ->
      map level rest = repeat info (List.length (alerted c env this)))) /\
  Forall (fun r => at_ r = "ContractMonitor") (logs (check c env this)).
Proof.
  assert (Hits : forall it r, In it (iterations c env this) -> In r (snd it) ->
            at_ r = "ContractMonitor" /\ level r <> debug).
  { intros it r Hit Hr.
    destruct c; cbn [iterations] in Hit; apply in_map_iff in Hit;
      destruct Hit as [it0 [<- Hit0]]; cbn [snd] in Hr;
      apply for_of_fst_In in Hit0; destruct Hit0 as [_ Hbody].
    - inversion Hbody as [Hrec]. rewrite <- Hrec in Hr.
      destruct Hr as [<-|[]]. split; [reflexivity | discriminate].
    - destruct (liquidation_body_records this env _ _ Hbody)
        as [alert [Hlevel [Hat Hrec]]].
      rewrite Hrec in Hr. apply in_app_iff in Hr. destruct Hr as [Hr|[<-|[]]].
      + destruct (price_missing env (fst it0)); [|destruct Hr].
        destruct Hr as [<-|[]]. split; [reflexivity | discriminate].
      + split; [exact Hat | rewrite Hlevel; discriminate].
    - inversion Hbody as [Hrec]. rewrite <- Hrec in Hr.
      destruct Hr as [<-|[]]. split; [reflexivity | discriminate].
    - inversion Hbody as [Hrec]. rewrite <- Hrec in Hr.
      destruct Hr as [<-|[]]. split; [reflexivity | discriminate]. }
  assert (Hlogged : forall r, In r (logged (iterations c env this)) ->
            at_ r = "ContractMonitor" /\ level r <> debug).
  { intros r Hr. unfold logged in Hr. apply in_concat in Hr.
    destruct Hr as [records [Hrecords Hr]]. apply in_map_iff in Hrecords.
    destruct Hrecords as [it [<- Hit]]. exact (Hits it r Hit Hr). }
  rewrite check_unfold. cbn [logs]. split.
  - exists (opening c this), (logged (iterations c env this)).
    split; [reflexivity|]. split; [destruct c; reflexivity|].
    split; [destruct c; reflexivity|]. split.
    + apply Forall_forall. intros r Hr. exact (proj2 (Hlogged r Hr)).
    + intro Hplain. unfold alerted. rewrite length_map.
      assert (Hone : forall it, In it (iterations c env this) ->
                map level (snd it) = [info]).
      { intros it Hit.
        destruct c; try contradiction; cbn [iterations] in Hit;
          apply in_map_iff in Hit; destruct Hit as [it0 [<- Hit0]];
          apply for_of_fst_In in Hit0; destruct Hit0 as [_ Hbody];
          inversion Hbody as [Hrec]; reflexivity. }
      unfold logged. clear Hits Hlogged.
      induction (iterations c env this) as [|it its IH]; [reflexivity|].
      cbn [map List.concat List.length repeat]. rewrite map_app.
      rewrite (Hone it (or_introl eq_refl)). cbn [app]. f_equal.
      apply IH. intros it' Hit'. apply Hone. now right.
  - constructor; [destruct c; reflexivity|].
    apply Forall_forall. intros r Hr. exact (proj1 (Hlogged r Hr)).
Qed.

(** X8. [checkForNewLiquidations] logs one [warn] record for each
    liquidation it processes whose historical price is missing, and no
    other: as many warnings as there are such liquidations among the
    completed iterations. *)
Theorem one_warning_per_missing_price (env : Collaborators) (this : ContractMonitor) :
  List.length (warnings (logs (checkForNewLiquidations env this))) =
  List.length
    (filter (price_missing env)
       (map fst (fst (for_of (liquidation_body this env)
                        (newLiquidationEvents this env))))).
Proof.
  change (checkForNewLiquidations env this) with (check Liquidations env this).
  rewrite check_unfold. cbn [logs iterations opening]. rewrite logged_relabel.
  cbn [warnings filter debug_record level Level_eqb].
  fold (warnings (logged (fst (for_of (liquidation_body this env)
                                (newLiquidationEvents this env))))).
  induction (newLiquidationEvents this env) as [|e rest IH]; [reflexivity|].
  cbn [for_of].
  destruct (liquidation_body this env e) as [err|records] eqn:Hbody; [reflexivity|].
  destruct (for_of (liquidation_body this env) rest) as [done err].
  cbn [fst map filter] in *.
  change (logged ((e, records) :: done)) with (records ++ logged done).
  rewrite warnings_app, length_app, IH.
  destruct (liquidation_body_records this env e records Hbody)
    as [alert [Hlevel [_ ->]]].
  rewrite warnings_app.
  assert (Halert : warnings [alert] = []).
  { cbn [warnings filter]. now rewrite Hlevel. }
  rewrite Halert, app_nil_r.
  destruct (price_missing env e); reflexivity.
Qed.

(** *** Bounds on the fixed-point computations *)

(** X11. For a non-negative collateral and a positive product of tokens
    and price, [calculatePositionCRPercent] returns the exact ratio
    collateral * 1e36 * 100 / (tokensOutstanding * price) rounded down to a
    multiple of 100: it never exceeds the exact ratio and falls short of it
    by less than 100. *)
Theorem calculatePositionCRPercent_bounds (collateral tokensOutstanding tokenPrice : Z) :
  (0 <= collateral)%Z ->
  (0 < tokensOutstanding * tokenPrice)%Z ->
  exists r q,
    Calc.calculatePositionCRPercent collateral tokensOutstanding tokenPrice = JS.ret r /\
    (r = q * 100 /\ 0 <= r /\
     r * (tokensOutstanding * tokenPrice) <= collateral * 10 ^ 36 * 100 /\
     collateral * 10 ^ 36 * 100 < (r + 100) * (tokensOutstanding * tokenPrice))%Z.
Proof.
  intros Hc Hden.
  unfold Calc.calculatePositionCRPercent, BN.mul, BN.muln, BN.toWei_1.
  rewrite div_returns by lia. cbn [JS.bind JS.ret].
  set (a := (collateral * 10 ^ 18 * 10 ^ 18)%Z).
  set (b := (tokensOutstanding * tokenPrice)%Z) in *.
  assert (Ha : (0 <= a)%Z) by (unfold a; lia).
  assert (Ha' : (collateral * 10 ^ 36 = a)%Z) by (unfold a; lia).
  rewrite Ha'.
  exists (Z.quot a b * 100)%Z, (Z.quot a b). split; [reflexivity|].
  rewrite Z.quot_div_nonneg by lia.
  pose proof (Z.mul_div_le a b Hden) as Hlow.
  pose proof (Z.mul_succ_div_gt a b Hden) as Hhigh.
  pose proof (Z.div_pos a b Ha Hden) as Hpos.
  repeat split; nia.
Qed.

(** X12. For a non-negative collateral, positive tokens and a positive
    requirement, [calculateDisputablePrice] never exceeds the exact price
    liquidatedCollateral * 1e36 / (liquidatedTokens * crRequirement), and
    its two truncations together lose less than 1 + 1e18 / crRequirement. *)
Theorem calculateDisputablePrice_bounds
    (crRequirement liquidatedCollateral liquidatedTokens : Z) :
  (0 <= liquidatedCollateral)%Z ->
  (0 < liquidatedTokens)%Z ->
  (0 < crRequirement)%Z ->
  exists r,
    Calc.calculateDisputablePrice crRequirement liquidatedCollateral liquidatedTokens =
      JS.ret r /\
    (0 <= r /\
     r * crRequirement * liquidatedTokens <= liquidatedCollateral * 10 ^ 36 /\
     liquidatedCollateral * 10 ^ 36 <
       (r + 1) * crRequirement * liquidatedTokens + liquidatedTokens * 10 ^ 18)%Z.
Proof.
  intros Hc Ht Hcr.
  unfold Calc.calculateDisputablePrice, BN.mul, BN.toWei_1.
  rewrite div_returns by lia. cbn [JS.bind JS.ret].
  rewrite div_returns by lia.
  set (a := (liquidatedCollateral * 10 ^ 18)%Z).
  assert (Ha : (0 <= a)%Z) by (unfold a; lia).
  assert (Ha' : (liquidatedCollateral * 10 ^ 36 = a * 10 ^ 18)%Z) by (unfold a; lia).
  rewrite Ha'.
  rewrite (Z.quot_div_nonneg a liquidatedTokens) by lia.
  set (q := (a / liquidatedTokens)%Z).
  pose proof (Z.mul_div_le a liquidatedTokens Ht) as Hlow1.
  pose proof (Z.mul_succ_div_gt a liquidatedTokens Ht) as Hhigh1.
  pose proof (Z.div_pos a liquidatedTokens Ha Ht) as Hq.
  fold q in Hlow1, Hhigh1, Hq.
  assert (Hb : (0 <= q * 10 ^ 18)%Z) by lia.
  rewrite (Z.quot_div_nonneg (q * 10 ^ 18) crRequirement) by lia.
  pose proof (Z.mul_div_le (q * 10 ^ 18) crRequirement Hcr) as Hlow2.
  pose proof (Z.mul_succ_div_gt (q * 10 ^ 18) crRequirement Hcr) as Hhigh2.
  pose proof (Z.div_pos (q * 10 ^ 18) crRequirement Hb Hcr) as Hr.
  set (r := (q * 10 ^ 18 / crRequirement)%Z) in *.
  exists r. split; [reflexivity|].
  assert (H18 : (10 ^ 18 = 1000000000000000000)%Z) by reflexivity.
  rewrite H18 in *.
  repeat split; nia.
Qed.

(** X13. [calculatePositionCRPercent] is monotone: with positive tokens,
    no less collateral and no higher a (positive) price give no lower a
    ratio. *)
Theorem calculatePositionCRPercent_monotone
    (collateral collateral' tokensOutstanding tokenPrice tokenPrice' : Z) :
  (0 <= collateral <= collateral')%Z ->
  (0 < tokensOutstanding)%Z ->
  (0 < tokenPrice' <= tokenPrice)%Z ->
  exists r r',
    Calc.calculatePositionCRPercent collateral tokensOutstanding tokenPrice = JS.ret r /\
    Calc.calculatePositionCRPercent collateral' tokensOutstanding tokenPrice' = JS.ret r' /\
    (r <= r')%Z.
Proof.
  intros Hc Ht Hp.
  unfold Calc.calculatePositionCRPercent, BN.mul, BN.muln, BN.toWei_1.
  rewrite !div_returns by nia. cbn [JS.bind JS.ret].
  eexists _, _. split; [reflexivity|]. split; [reflexivity|].
  apply Z.mul_le_mono_nonneg_r; [lia|].
  transitivity (Z.quot (collateral' * 10 ^ 18 * 10 ^ 18)
                       (tokensOutstanding * tokenPrice)).
  - apply Z.quot_le_mono; nia.
  - apply Z.quot_le_compat_l; nia.
Qed.

(** X14. Both computations depend on the collateral and the tokens only
    through their proportion: multiplying both by the same non-zero factor
    changes neither result. *)
Theorem metrics_scale_invariant (k collateral tokens price crRequirement : Z) :
  k <> 0%Z ->
  tokens <> 0%Z ->
  Calc.calculatePositionCRPercent (k * collateral) (k * tokens) price =
    Calc.calculatePositionCRPercent collateral tokens price /\
  Calc.calculateDisputablePrice crRequirement (k * collateral) (k * tokens) =
    Calc.calculateDisputablePrice crRequirement collateral tokens.
Proof.
  intros Hk Ht.
  unfold Calc.calculatePositionCRPercent, Calc.calculateDisputablePrice,
    BN.mul, BN.muln, BN.toWei_1.
  split.
  - unfold BN.div.
    destruct (Z.eqb_spec (tokens * price) 0) as [Hzero|Hnonzero].
    + replace (k * tokens * price)%Z with (k * (tokens * price))%Z by lia.
      rewrite Hzero, Z.mul_0_r. reflexivity.
    + destruct (Z.eqb_spec (k * tokens * price) 0) as [Hzero'|_]; [nia|].
      cbn [JS.bind JS.ret]. do 2 f_equal.
      replace (k * collateral * 10 ^ 18 * 10 ^ 18)%Z
        with (k * (collateral * 10 ^ 18 * 10 ^ 18))%Z by lia.
      replace (k * tokens * price)%Z with (k * (tokens * price))%Z by lia.
      now apply Z.quot_mul_cancel_l.
  - rewrite (div_returns _ _ Ht).
    rewrite div_returns by nia. cbn [JS.bind JS.ret]. do 2 f_equal.
    replace (k * collateral * 10 ^ 18)%Z with (k * (collateral * 10 ^ 18))%Z by lia.
    now apply Z.quot_mul_cancel_l.
Qed.

End CheckMethods.

(* ================================================================== *)
(** ** The properties on concrete inputs *)

(** C1, as stated, fails. Each fetch below is in non-decreasing block
    order, and so are the last block numbers of the successive fetches and
    even all block numbers in fetch order; every invocation completes. The
    empty fetch in between puts the watermark back to 0, and the sponsor of
    block 10, alerted by the first invocation, is alerted again by the
    third. *)
Lemma repeated_alert_after_empty_fetch :
  ordered_fetches Sponsors Sample.interrupted = true /\
  nondecreasing (last_blocks Sponsors Sample.interrupted) = true /\
  nondecreasing (all_blocks Sponsors Sample.interrupted) = true /\
  completed Sample.formatDecimalString Sample.createEtherscanLinkMarkdown
    Sponsors Sample.interrupted Sample.monitor = true /\
  invocations Sample.formatDecimalString Sample.createEtherscanLinkMarkdown
    Sponsors Sample.interrupted Sample.monitor =
    [ (Sample.monitor, Sample.one_sponsor);
      (Sample.monitor_at 10, Sample.no_sponsors);
      (Sample.monitor_at 0, Sample.one_sponsor) ] /\
  alerted Sample.formatDecimalString Sample.createEtherscanLinkMarkdown
    Sponsors Sample.one_sponsor Sample.monitor =
    [SponsorEvent (Sample.sponsor_at 10)] /\
  alerted Sample.formatDecimalString Sample.createEtherscanLinkMarkdown
    Sponsors Sample.one_sponsor (Sample.monitor_at 0) =
    [SponsorEvent (Sample.sponsor_at 10)] /\
  List.length
    (alerts (logs (checkForNewSponsors Sample.formatDecimalString
                     Sample.createEtherscanLinkMarkdown
                     Sample.one_sponsor (Sample.monitor_at 0)))) = 1%nat.
Proof.
  repeat split.
Qed.

(** C1 (as amended) on a growing history: what the first invocation
    alerts, the third does not, and the second, fetching what the first
    fetched, alerts nothing. *)
Lemma no_repeated_alerts_witness :
  (forall e,
     In e (alerted Sample.formatDecimalString Sample.createEtherscanLinkMarkdown
             Sponsors Sample.two_sponsors Sample.monitor) ->
     ~ In e (alerted Sample.formatDecimalString Sample.createEtherscanLinkMarkdown
               Sponsors Sample.three_sponsors (Sample.monitor_at 15))) /\
  alerts (logs (check Sample.formatDecimalString Sample.createEtherscanLinkMarkdown
                  Sponsors Sample.two_sponsors (Sample.monitor_at 15))) = [].
Proof.
  destruct (no_repeated_alerts Sample.formatDecimalString
              Sample.createEtherscanLinkMarkdown Sponsors Sample.growing
              Sample.monitor eq_refl eq_refl eq_refl) as [Hlater Hsame].
  split.
  - intros e He.
    exact (Hlater 0%nat 2%nat Sample.monitor Sample.two_sponsors
             (Sample.monitor_at 15) Sample.three_sponsors e
             (Nat.lt_0_succ 1) eq_refl eq_refl He).
  - exact (proj2 (Hsame 0%nat Sample.monitor Sample.two_sponsors
                    (Sample.monitor_at 15) Sample.two_sponsors
                    eq_refl eq_refl eq_refl)).
Defined.

(** C2, as stated, fails: the sponsor watermark stands at 15 after a fetch
    of two sponsors, and an empty fetch leaves it at 0. *)
Lemma empty_fetch_loses_watermark :
  after (checkForNewSponsors Sample.formatDecimalString
           Sample.createEtherscanLinkMarkdown Sample.two_sponsors Sample.monitor) =
    Sample.monitor_at 15 /\
  fetched Sponsors Sample.no_sponsors = [] /\
  lastNewSponsorBlockNumber (Sample.monitor_at 15) = 15%N /\
  lastNewSponsorBlockNumber
    (after (checkForNewSponsors Sample.formatDecimalString
              Sample.createEtherscanLinkMarkdown Sample.no_sponsors
              (Sample.monitor_at 15))) = 0%N.
Proof.
  repeat split.
Qed.

(** C2 (as amended) on that input. *)
Lemma empty_fetch_resets_watermark_witness :
  thrown (check Sample.formatDecimalString Sample.createEtherscanLinkMarkdown
            Sponsors Sample.no_sponsors (Sample.monitor_at 15)) = None /\
  watermark Sponsors
    (after (check Sample.formatDecimalString Sample.createEtherscanLinkMarkdown
              Sponsors Sample.no_sponsors (Sample.monitor_at 15))) = 0%N.
Proof.
  destruct (empty_fetch_resets_watermark Sample.formatDecimalString
              Sample.createEtherscanLinkMarkdown Sponsors Sample.no_sponsors
              (Sample.monitor_at 15) eq_refl) as [Hthrown [Hzero _]].
  split; [exact Hthrown | exact Hzero].
Defined.

(** C3, as stated, fails: after two completed invocations on a history
    that loses its last event the watermark is 10, below the block 20 the
    first fetch returned, and it went down from 20 to 10. *)
Lemma watermark_below_max_block :
  completed Sample.formatDecimalString Sample.createEtherscanLinkMarkdown
    Sponsors Sample.truncated Sample.monitor = true /\
  watermark Sponsors
    (invoke_all Sample.formatDecimalString Sample.createEtherscanLinkMarkdown
       Sponsors Sample.truncated Sample.monitor) = 10%N /\
  max_block Sponsors Sample.truncated = 20%N /\
  watermarks Sample.formatDecimalString Sample.createEtherscanLinkMarkdown
    Sponsors Sample.truncated Sample.monitor = [0%N; 20%N; 10%N].
Proof.
  repeat split.
Qed.

(** C3 (as amended) on a growing history. *)
Lemma watermark_is_max_block_witness :
  watermark Sponsors
    (invoke_all Sample.formatDecimalString Sample.createEtherscanLinkMarkdown
       Sponsors Sample.growing (constructor Sample.config Sample.props)) =
    max_block Sponsors Sample.growing /\
  nondecreasing
    (watermarks Sample.formatDecimalString Sample.createEtherscanLinkMarkdown
       Sponsors Sample.growing (constructor Sample.config Sample.props)) = true.
Proof.
  exact (watermark_is_max_block Sample.formatDecimalString
           Sample.createEtherscanLinkMarkdown Sponsors Sample.growing
           Sample.config Sample.props eq_refl eq_refl eq_refl).
Defined.



(** C8, as stated, fails. Of three new liquidations the second has no
    tokens outstanding, so its metrics divide by zero: the pass throws,
    having alerted the first liquidation only; it logs no warn-level
    record, no alert for the second or the third liquidation, and leaves
    the watermark at 0 although the fetched list ends at block 12. *)
Lemma arithmetic_fault_is_not_contained :
  newLiquidationEvents Sample.monitor Sample.faulty =
    [ Sample.liquidation_at 10 (1000 * 10 ^ 18);
      Sample.liquidation_at 11 0;
      Sample.liquidation_at 12 (1000 * 10 ^ 18) ] /\
  arithmetic_fault Sample.faulty (Sample.liquidation_at 11 0) = true /\
  thrown (checkForNewLiquidations Sample.formatDecimalString
            Sample.createEtherscanLinkMarkdown Sample.faulty Sample.monitor) =
    Some JS.DivisionByZero /\
  alerted Sample.formatDecimalString Sample.createEtherscanLinkMarkdown
    Liquidations Sample.faulty Sample.monitor =
    [LiquidationEvent (Sample.liquidation_at 10 (1000 * 10 ^ 18))] /\
  map level
    (logs (checkForNewLiquidations Sample.formatDecimalString
             Sample.createEtherscanLinkMarkdown Sample.faulty Sample.monitor)) =
    [debug; info] /\
  lastLiquidationBlockNumber
    (after (checkForNewLiquidations Sample.formatDecimalString
              Sample.createEtherscanLinkMarkdown Sample.faulty Sample.monitor)) = 0%N /\
  getLastSeenBlockNumber (getAllLiquidationEvents (empEventClient Sample.faulty)) = 12%N.
Proof.
  repeat split.
Qed.

(** C8 (as amended) on that input. *)
Lemma arithmetic_fault_aborts_pass_witness :
  thrown (checkForNewLiquidations Sample.formatDecimalString
            Sample.createEtherscanLinkMarkdown Sample.faulty Sample.monitor) =
    Some JS.DivisionByZero /\
  after (checkForNewLiquidations Sample.formatDecimalString
           Sample.createEtherscanLinkMarkdown Sample.faulty Sample.monitor) =
    Sample.monitor.
Proof.
  destruct (arithmetic_fault_aborts_pass Sample.formatDecimalString
              Sample.createEtherscanLinkMarkdown Sample.monitor Sample.faulty
              [Sample.liquidation_at 10 (1000 * 10 ^ 18)]
              [Sample.liquidation_at 12 (1000 * 10 ^ 18)]
              (Sample.liquidation_at 11 0) eq_refl eq_refl eq_refl)
    as [Hthrown [Hafter _]].
  split; [exact Hthrown | exact Hafter].
Defined.

(** Listing an address twice does not change who is a member. *)
Lemma indexOf_repeated (x a : string) :
  (JS.indexOf [x; x] a =? -1)%Z = (JS.indexOf [x] a =? -1)%Z.
Proof.
  unfold JS.indexOf. cbn [JS.indexOf_from].
  destruct (String.eqb x a); reflexivity.
Defined.

(** C9 on a monitor whose liquidator list names the same address twice:
    the records are those of the monitor that names it once; and on the
    liquidation of a monitored liquidator: the records are those of the run
    with empty lists, with the liquidator's annotation put into the
    alert. *)
Lemma monitored_sets_only_annotate_witness :
  logs (check Sample.formatDecimalString Sample.createEtherscanLinkMarkdown
          Liquidations Sample.unpriced
          (with_monitored ["0x1234"; "0x1234"] ["0x5678"] Sample.monitor)) =
  logs (check Sample.formatDecimalString Sample.createEtherscanLinkMarkdown
          Liquidations Sample.unpriced Sample.monitor) /\
  Forall2 (fun it it0 =>
             fst it = fst it0 /\
             Forall2 (fun actual base =>
                        annotates (annotations ["0x1234"] ["0x5678"] (fst it)) base actual)
                     (snd it) (snd it0))
          (iterations Sample.formatDecimalString Sample.createEtherscanLinkMarkdown
             Liquidations Sample.unpriced
             (with_monitored ["0x1234"] ["0x5678"] Sample.monitor))
          (iterations Sample.formatDecimalString Sample.createEtherscanLinkMarkdown
             Liquidations Sample.unpriced (with_monitored [] [] Sample.monitor)).
Proof.
  split.
  - exact (proj2 (proj2 (proj2 (proj2 (proj2 (proj2
             (monitored_sets_only_annotate Sample.formatDecimalString
                Sample.createEtherscanLinkMarkdown Liquidations Sample.unpriced
                Sample.monitor ["0x1234"; "0x1234"] ["0x5678"]))))))
             (indexOf_repeated "0x1234") (fun a => eq_refl)).
  - exact (proj2 (proj2 (proj1
             (monitored_sets_only_annotate Sample.formatDecimalString
                Sample.createEtherscanLinkMarkdown Liquidations Sample.unpriced
                Sample.monitor ["0x1234"] ["0x5678"])))).
Defined.

(** C10 on the sample monitor, configured with the symbol ETHBTC: the one
    liquidation alert reads [undefined] for the token symbol. *)
Lemma liquidation_alert_symbol_undefined_witness :
  exists before behind,
    mrkdwn
      (liquidation_alert Sample.formatDecimalString
         Sample.createEtherscanLinkMarkdown Sample.monitor
         (Sample.liquidation_at 10 (1000 * 10 ^ 18)) None
         (BN.muln (12 * 10 ^ 17) 100) "[Invalid]" "[Invalid]") =
    JS.Str (before +s " undefined tokens. " +s behind).
Proof.
  apply (proj1 (proj2
           (liquidation_alert_symbol_undefined Sample.formatDecimalString
              Sample.createEtherscanLinkMarkdown Sample.monitor Sample.unpriced
              "ETHBTC"))).
  left. reflexivity.
Defined.

(** C5 on a ratio that does not divide evenly: 3e36 / 2 * 100. *)
Lemma calculatePositionCRPercent_exact_witness :
  Calc.calculatePositionCRPercent 3 2 1 =
  JS.ret (Z.quot (3 * 10 ^ 18 * 10 ^ 18) (2 * 1) * 100)%Z.
Proof.
  apply (proj1 calculatePositionCRPercent_exact). discriminate.
Defined.

(** C6 on quotients that truncate: ((7e18 / 3) * 1e18) / 2. *)
Lemma calculateDisputablePrice_exact_witness :
  Calc.calculateDisputablePrice 2 7 3 =
  JS.ret (Z.quot (Z.quot (7 * 10 ^ 18) 3 * 10 ^ 18) 2)%Z.
Proof.
  apply (proj1 calculateDisputablePrice_exact); discriminate.
Defined.

(** X2 on three fetched sponsors and a watermark of 10: after the debug
    record, two alerts are logged, and the watermark becomes 20. *)
Lemma plain_pass_alerts_all_new_witness :
  map level
    (logs (checkForNewSponsors Sample.formatDecimalString
             Sample.createEtherscanLinkMarkdown Sample.three_sponsors
             (Sample.monitor_at 10))) = [debug; info; info] /\
  lastNewSponsorBlockNumber
    (after (checkForNewSponsors Sample.formatDecimalString
              Sample.createEtherscanLinkMarkdown Sample.three_sponsors
              (Sample.monitor_at 10))) = 20%N.
Proof.
  destruct (plain_pass_alerts_all_new Sample.formatDecimalString
              Sample.createEtherscanLinkMarkdown Sample.three_sponsors
              (Sample.monitor_at 10)) as [[Hlogs Hwatermark] _].
  split; [now rewrite Hlogs | exact Hwatermark].
Defined.

(** X3 on a pass with a zero divisor, and on one without, whose single
    liquidation is priced. *)
Lemma liquidation_pass_outcome_witness :
  thrown (checkForNewLiquidations Sample.formatDecimalString
            Sample.createEtherscanLinkMarkdown Sample.faulty Sample.monitor) =
    Some JS.DivisionByZero /\
  map level
    (logs (checkForNewLiquidations Sample.formatDecimalString
             Sample.createEtherscanLinkMarkdown Sample.priced Sample.monitor)) =
    [debug; info].
Proof.
  split.
  - exact (proj1 (liquidation_pass_outcome Sample.formatDecimalString
                    Sample.createEtherscanLinkMarkdown Sample.faulty Sample.monitor)).
  - destruct (proj2 (liquidation_pass_outcome Sample.formatDecimalString
                       Sample.createEtherscanLinkMarkdown Sample.priced Sample.monitor)
                eq_refl) as [alert [Halert Hlogs]].
    pose proof (proj1 (Halert (Sample.liquidation_at 10 (1000 * 10 ^ 18))
                         (or_introl eq_refl))) as Hlevel.
    rewrite Hlogs. vm_compute in Hlevel. vm_compute. now rewrite Hlevel.
Defined.

(** X4 on a second sponsor created in the block of the first, fetched one
    pass later: it is in the fetched list and is not alerted. *)
Lemma event_at_watermark_block_skipped_witness :
  In (SponsorEvent (Sample.other_sponsor_at 10)) (fetched Sponsors Sample.same_block) /\
  ~ In (SponsorEvent (Sample.other_sponsor_at 10))
       (alerted Sample.formatDecimalString Sample.createEtherscanLinkMarkdown
          Sponsors Sample.same_block
          (after (check Sample.formatDecimalString Sample.createEtherscanLinkMarkdown
                    Sponsors Sample.one_sponsor Sample.monitor))).
Proof.
  split; [right; left; reflexivity|].
  apply (event_at_watermark_block_skipped Sample.formatDecimalString
           Sample.createEtherscanLinkMarkdown Sponsors Sample.one_sponsor
           Sample.same_block Sample.monitor
           (SponsorEvent (Sample.other_sponsor_at 10)) eq_refl).
  discriminate.
Defined.

(** X5 on a sponsor of block 0 and the fresh monitor. *)
Lemma block_zero_never_alerted_witness :
  ~ In (SponsorEvent (Sample.sponsor_at 0))
       (alerted Sample.formatDecimalString Sample.createEtherscanLinkMarkdown
          Sponsors (Sample.sponsors_only [Sample.sponsor_at 0]) Sample.monitor).
Proof.
  exact (block_zero_never_alerted Sample.formatDecimalString
           Sample.createEtherscanLinkMarkdown Sponsors
           (Sample.sponsors_only [Sample.sponsor_at 0]) Sample.monitor
           (SponsorEvent (Sample.sponsor_at 0)) eq_refl).
Defined.

(** X6 on the sponsor check after the liquidation check. *)
Lemma categories_commute_witness :
  logs (check Sample.formatDecimalString Sample.createEtherscanLinkMarkdown
          Sponsors Sample.two_sponsors
          (after (check Sample.formatDecimalString Sample.createEtherscanLinkMarkdown
                    Liquidations Sample.unpriced Sample.monitor))) =
  logs (check Sample.formatDecimalString Sample.createEtherscanLinkMarkdown
          Sponsors Sample.two_sponsors Sample.monitor).
Proof.
  exact (proj1 (categories_commute Sample.formatDecimalString
                  Sample.createEtherscanLinkMarkdown Sponsors Liquidations
                  Sample.two_sponsors Sample.unpriced Sample.monitor
                  ltac:(discriminate))).
Defined.

(** X10 on the pass with a zero divisor, invoked twice. *)
Lemma thrown_pass_repeats_witness :
  invocations Sample.formatDecimalString Sample.createEtherscanLinkMarkdown
    Liquidations [Sample.faulty; Sample.faulty] Sample.monitor =
    [(Sample.monitor, Sample.faulty); (Sample.monitor, Sample.faulty)] /\
  invoke_all Sample.formatDecimalString Sample.createEtherscanLinkMarkdown
    Liquidations [Sample.faulty; Sample.faulty] Sample.monitor = Sample.monitor.
Proof.
  exact (thrown_pass_repeats Sample.formatDecimalString
           Sample.createEtherscanLinkMarkdown Liquidations Sample.faulty
           Sample.monitor JS.DivisionByZero 2 eq_refl).
Defined.

(** X11 on 3 / (2 * 1). *)
Lemma calculatePositionCRPercent_bounds_witness :
  exists r q,
    Calc.calculatePositionCRPercent 3 2 1 = JS.ret r /\
    (r = q * 100 /\ 0 <= r /\
     r * (2 * 1) <= 3 * 10 ^ 36 * 100 /\
     3 * 10 ^ 36 * 100 < (r + 100) * (2 * 1))%Z.
Proof.
  apply (calculatePositionCRPercent_bounds 3 2 1); [discriminate | reflexivity].
Defined.

(** X12 on 7 collateral, 3 tokens and a requirement of 2. *)
Lemma calculateDisputablePrice_bounds_witness :
  exists r,
    Calc.calculateDisputablePrice 2 7 3 = JS.ret r /\
    (0 <= r /\ r * 2 * 3 <= 7 * 10 ^ 36 /\
     7 * 10 ^ 36 < (r + 1) * 2 * 3 + 3 * 10 ^ 18)%Z.
Proof.
  apply (calculateDisputablePrice_bounds 2 7 3); [discriminate | reflexivity | reflexivity].
Defined.

(** X13 on more collateral at a lower price. *)
Lemma calculatePositionCRPercent_monotone_witness :
  exists r r',
    Calc.calculatePositionCRPercent 3 2 5 = JS.ret r /\
    Calc.calculatePositionCRPercent 4 2 1 = JS.ret r' /\
    (r <= r')%Z.
Proof.
  apply (calculatePositionCRPercent_monotone 3 4 2 5 1).
  - split; discriminate.
  - reflexivity.
  - split; [reflexivity | discriminate].
Defined.

(** X14 on a position scaled by 1000. *)
Lemma metrics_scale_invariant_witness :
  Calc.calculatePositionCRPercent (1000 * 7) (1000 * 3) 2 =
    Calc.calculatePositionCRPercent 7 3 2 /\
  Calc.calculateDisputablePrice 5 (1000 * 7) (1000 * 3) =
    Calc.calculateDisputablePrice 5 7 3.
Proof.
  apply (metrics_scale_invariant 1000 7 3 2 5); discriminate.
Defined.

(** X15 on a history that shrinks from two sponsors to one. *)
Lemma watermark_forgets_history_witness :
  watermark Sponsors
    (invoke_all Sample.formatDecimalString Sample.createEtherscanLinkMarkdown
       Sponsors ([Sample.two_sponsors] ++ [Sample.one_sponsor]) Sample.monitor) =
  getLastSeenBlockNumber (fetched Sponsors Sample.one_sponsor).
Proof.
  exact (watermark_forgets_history Sample.formatDecimalString
           Sample.createEtherscanLinkMarkdown Sponsors [Sample.two_sponsors]
           Sample.one_sponsor Sample.monitor eq_refl).
Defined.

(** C7, as stated, fails. With no tokens outstanding
    [calculatePositionCRPercent] throws, and with a zero requirement
    [calculateDisputablePrice] throws, but what they throw is the plain
    [Error] of bn.js's failed assertion, whose message is
    [Assertion failed]: no arithmetic error of its own, and nothing in it
    names the division by zero. *)
Lemma zero_divisor_error_is_generic :
  Calc.calculatePositionCRPercent (2000 * 10 ^ 18) 0 (10 ^ 18) =
    JS.throw {| JS.name := "Error"; JS.message := "Assertion failed" |} /\
  Calc.calculateDisputablePrice 0 (1200 * 10 ^ 18) (1000 * 10 ^ 18) =
    JS.throw {| JS.name := "Error"; JS.message := "Assertion failed" |} /\
  JS.name JS.DivisionByZero <> "ArithmeticError".
Proof.
  repeat split. discriminate.
Qed.
